(** * preflighter: the checklist driver of [main.go]

    A shallow embedding of [func main] of the preflighter command.  The
    function is a straight sequence of phases (argument loading, runbook
    client creation, environment resolution, runbook expansion, listing,
    runner preparation, item execution); each phase is a definition below,
    written in a small trace-and-exit monad.

    What [main] calls outside itself is of two kinds.  Calls whose result
    [main] looks at ([LoadChecklist], [exec.Command(...).Output],
    [os.Getenv], [RunItemCheck], [UxCheckItem], ...) are fields of the record
    [World]: deterministic functions of their arguments that return
    normally.  Calls made for their effect ([UxPrintError], [fmt.Printf],
    [UxBlankItem], [ChecklistItemUpdate], ...) are recorded, with their
    arguments, as [Event]s of the trace of the run; a call on the runbook
    client records whether the client was nil. *)

From Stdlib Require Import String Ascii List ZArith Bool Lia.
From stdpp Require Import base option list strings gmap fin_maps.

Import ListNotations.
Local Open Scope string_scope.
Local Open Scope list_scope.

(** ** Go strings

    A Go string is a sequence of bytes, and so is a [string] here. *)

Definition nl : string := String "010"%char EmptyString.
Definition cr : string := String "013"%char EmptyString.
Definition tab : string := String "009"%char EmptyString.

(** [len(s)] *)
Definition len (s : string) : nat := String.length s.

(** [strings.HasPrefix(s, prefix)] *)
Definition HasPrefix (s prefix : string) : bool := String.prefix prefix s.

(** [s[lo:hi]] for [lo <= hi <= len(s)], the only way [main] uses it. *)
Definition slice (s : string) (lo hi : nat) : string :=
  String.substring lo (hi - lo) s.

(** [s[lo:]] *)
Definition sliceFrom (s : string) (lo : nat) : string :=
  String.substring lo (len s - lo) s.

Fixpoint inCutset (c : ascii) (cutset : string) : bool :=
  match cutset with
  | EmptyString => false
  | String d rest => if Ascii.eqb c d then true else inCutset c rest
  end.

(** [strings.TrimRight(s, cutset)]: drop the longest suffix of [s] made of
    bytes of [cutset] (the cutset of [main] is plain ASCII, so bytes and
    runes agree). *)
Fixpoint TrimRight (s cutset : string) : string :=
  match s with
  | EmptyString => EmptyString
  | String c rest =>
      match TrimRight rest cutset with
      | EmptyString =>
          if inCutset c cutset then EmptyString else String c EmptyString
      | kept => String c kept
      end
  end.

(** The cutset of line 87: newline, carriage return, tab, space. *)
Definition trimCutset : string := nl +:+ cr +:+ tab +:+ " ".

(** ** Data model *)

(** Modelled from the spec: the declaration of [ChecklistItem] is in package
    [util]; [main] reads [Title], [RunbookID] and [RunbookStep], and the spec
    adds the optional automated check, kept here as [Script]. *)
Record ChecklistItem := mkItem {
  Title : string;
  Script : string;
  RunbookID : string;
  RunbookStep : string;
}.

(** The zero value of the struct, what a fresh slot of a backing array
    holds. *)
Definition zeroItem : ChecklistItem := mkItem "" "" "" "".

(** Modelled from the spec: the declaration of [ChecklistFile] is in package
    [util]; these are the fields [main] reads and writes. *)
Record ChecklistFile := mkFile {
  FileTitle : string;
  Filename : string;
  Env : gmap string string;
  Checklist : list ChecklistItem;
  RunbookSteps : list string;
}.

Definition setEnv (f : ChecklistFile) (e : gmap string string) : ChecklistFile :=
  mkFile (FileTitle f) (Filename f) e (Checklist f) (RunbookSteps f).

Definition setChecklist (f : ChecklistFile) (c : list ChecklistItem) : ChecklistFile :=
  mkFile (FileTitle f) (Filename f) (Env f) c (RunbookSteps f).

(** Handles of package [util] that [main] only passes around. *)
Inductive RunbookClient := TheRunbookClient.

Record Config := mkConfig {
  UserTempDir : string;
  ConfigFiles : list ChecklistFile;
}.

Record Runner := mkRunner { runnerConfig : Config }.

(** Captured output of an interactive check ([result.Stdout],
    [result.Stderr]). *)
Record ExecResult := mkResult { Stdout : string; Stderr : string }.

(** A Go [error] value is its message; [None] is [nil]. *)
Definition error := string.

(** Command line, after [flag.Parse]. *)
Record Flags := mkFlags {
  fTempDir : string;
  fSkip : Z;
  fList : bool;
  fAuto : bool;
  Args : list string;
}.

(** The collaborators of [main]. *)
Record World := mkWorld {
  LoadChecklist : string -> error + ChecklistFile;
  CreateRunbookClientWithEnvConfig : error + RunbookClient;
  (** [exec.Command("bash", "-c", cmd).Output()] *)
  BashOutput : string -> string * option error;
  Getenv : string -> string;
  ChecklistFromRunbook :
    option RunbookClient -> string -> error + list ChecklistItem;
  CreateConfig : error + Config;
  AddChecklistFile : Config -> ChecklistFile -> error + Config;
  CreateRunner : Config -> error + Runner;
  GetMissingTools : Runner -> list string;
  CanCheckItem : ChecklistItem -> bool;
  (** value, serr, ok, err *)
  RunItemCheck : ChecklistItem -> Runner -> string * string * bool * option error;
  UxCheckItem : ChecklistItem -> Runner -> bool * ExecResult;
  (** The capacity the runtime picks when [append] outgrows a backing
      array: old capacity, needed length. *)
  growslice : nat -> nat -> nat;
  (** The order in which the runtime ranges over the [Env] map of the
      checklist at a given position of [checklistFiles].  Go leaves the
      order unspecified and changes it from one [range] to the next; every
      entry is visited once. *)
  rangeOrder : nat -> gmap string string -> list (string * string);
  rangeOrder_visits :
    forall i m, Permutation (rangeOrder i m) (map_to_list m);
}.

(** ** Observable behaviour *)

Inductive Arg := AStr (s : string) | AInt (n : Z).

Inductive Event :=
| EvPrintError (msg : string)                   (* UxPrintError(err) *)
| EvPrintf (format : string) (args : list Arg)  (* fmt.Printf *)
| EvPrintln (args : list string)                (* fmt.Println *)
| EvExec (cmd : string)                         (* bash -c cmd *)
| EvFetch (step : string)                       (* ChecklistFromRunbook *)
| EvBlankItem (item : ChecklistItem)            (* UxBlankItem *)
| EvSkipItem (item : ChecklistItem) (reason : string)
| EvRunItemCheck (item : ChecklistItem)         (* RunItemCheck: the Runner *)
| EvFailItem (item : ChecklistItem) (msg serr : string)
| EvPassItem (item : ChecklistItem) (value : string)
| EvCheckItem (item : ChecklistItem)            (* UxCheckItem: the Runner *)
| EvItemUpdate (client : option RunbookClient) (step id : string)
               (status : Z) (note : string).    (* ChecklistItemUpdate *)

(** How the process ends: [main] returns, [os.Exit(code)], or a runtime
    panic. *)
Inductive Outcome :=
| Returned
| Exited (code : Z)
| Panicked (msg : string).

(** Exit status seen by the parent: returning from [main] is status 0, an
    unrecovered panic is status 2. *)
Definition exitStatus (o : Outcome) : Z :=
  match o with
  | Returned => 0
  | Exited code => code
  | Panicked _ => 2
  end.

(** ** The monad of [main]: a trace, then either the end of the process or a
    value to go on with. *)
Module Proc.

Definition t (A : Type) : Type := list Event * (Outcome + A).

Definition ret {A} (a : A) : t A := ([], inr a).

Definition bind {A B} (m : t A) (k : A -> t B) : t B :=
  match m with
  | (tr, inl o) => (tr, inl o)
  | (tr, inr a) => let '(tr', r) := k a in (tr ++ tr', r)
  end.

Definition emit (e : Event) : t unit := ([e], inr tt).

Definition emits (es : list Event) : t unit := (es, inr tt).

Definition halt {A} (o : Outcome) : t A := ([], inl o).

(** [for _, x := range xs { acc = body(acc, x) }] with early exits. *)
Fixpoint foldM {A B} (body : A -> B -> t A) (acc : A) (xs : list B) : t A :=
  match xs with
  | [] => ret acc
  | x :: rest => bind (body acc x) (fun acc' => foldM body acc' rest)
  end.

End Proc.

Notation "'let*' x ':=' m 'in' k" := (Proc.bind m (fun x => k))
  (at level 10, x pattern, m at level 100, k at level 200).
Notation "m ';;' k" := (Proc.bind m (fun _ => k))
  (at level 100, k at level 200, right associativity).

(** ** Phase 1 (lines 23-59): read the checklists named on the command line *)

(** One iteration of the loop of line 31.  The state is [useRunbook] and
    [checklistFiles]. *)
Definition loadArg (w : World) (st : bool * list ChecklistFile) (fname : string)
  : Proc.t (bool * list ChecklistFile) :=
  let '(useRunbook, checklistFiles) := st in
  if HasPrefix fname "runbook:" then
    let stepId := sliceFrom fname 8 in
    Proc.ret (true,
              checklistFiles ++ [mkFile "Runbook Checklist" "" ∅ [] [stepId]])
  else
    match LoadChecklist w fname with
    | inl err => Proc.emit (EvPrintError err) ;; Proc.halt Returned
    | inr checklist =>
        let useRunbook :=
          if (0 <? length (RunbookSteps checklist))%nat then true else useRunbook in
        let useRunbook :=
          fold_left
            (fun u step => if negb (String.eqb (RunbookID step) "") then true else u)
            (Checklist checklist) useRunbook in
        Proc.ret (useRunbook, checklistFiles ++ [checklist])
    end.

Definition loadChecklists (w : World) (fl : Flags)
  : Proc.t (bool * list ChecklistFile) :=
  if (length (Args fl) =? 0)%nat then
    Proc.emit (EvPrintError "Please specify one or more checklists to process") ;;
    Proc.halt Returned
  else Proc.foldM (loadArg w) (false, []) (Args fl).

(** ** Phase 2 (lines 61-68): the runbook client, only if needed *)

Definition createRunbook (w : World) (useRunbook : bool)
  : Proc.t (option RunbookClient) :=
  if useRunbook then
    match CreateRunbookClientWithEnvConfig w with
    | inl err =>
        Proc.emit (EvPrintError ("Could not use runbook: " +:+ err)) ;;
        Proc.halt (Exited 1)
    | inr client => Proc.ret (Some client)
    end
  else Proc.ret None.

(** ** Phase 3 (lines 70-99): environment resolution *)

(** The body of the loop of line 73 for one [key, value] of [file.Env].  The
    state is the map being updated and the flag [failed]. *)
Definition resolveEntry (w : World) (st : gmap string string * bool)
    (kv : string * string) : Proc.t (gmap string string * bool) :=
  let '(env, failed) := st in
  let '(key, value) := kv in
  if HasPrefix value "${" then
    if (len value <? 3)%nat then Proc.ret (<[key := ""]> env, failed)
    else
      let cmd := slice value 2 (len value - 1) in
      let '(out, err) := BashOutput w cmd in
      Proc.emit (EvExec cmd) ;;
      let* failed :=
        match err with
        | Some e =>
            Proc.emit
              (EvPrintError ("Unable to execute '" +:+ cmd +:+ "': " +:+ e)) ;;
            Proc.ret true
        | None => Proc.ret failed
        end in
      Proc.ret (<[key := TrimRight out trimCutset]> env, failed)
  else if String.eqb value "<" then
    if String.eqb (Getenv w key) "" then
      Proc.emit
        (EvPrintError ("Missing required " +:+ key +:+ " environment variable")) ;;
      Proc.ret (env, true)
    else Proc.ret (env, failed)
  else Proc.ret (env, failed).

(** The body of the loop of line 72.  Go ranges over a map in an unspecified
    order and visits every key once (assigning to existing keys while
    ranging is allowed); the order of this [range], the one over the map of
    the checklist at position [length resolved], is the world's
    [rangeOrder]. *)
Definition resolveFile (w : World) (st : list ChecklistFile * bool)
    (file : ChecklistFile) : Proc.t (list ChecklistFile * bool) :=
  let '(resolved, failed) := st in
  let* (env, failed) :=
    Proc.foldM (resolveEntry w) (Env file, failed)
      (rangeOrder w (length resolved) (Env file)) in
  Proc.ret (resolved ++ [setEnv file env], failed).

Definition resolveEnv (w : World) (checklistFiles : list ChecklistFile)
  : Proc.t (list ChecklistFile) :=
  let* (resolved, failed) :=
    Proc.foldM (resolveFile w) ([], false) checklistFiles in
  if (failed : bool) then Proc.halt (Exited 1) else Proc.ret resolved.

(** ** Phase 4 (lines 101-114): append the items of the runbook steps *)

Definition fetchStep (w : World) (runbook : option RunbookClient)
    (items : list ChecklistItem) (step : string) : Proc.t (list ChecklistItem) :=
  Proc.emit (EvFetch step) ;;
  match ChecklistFromRunbook w runbook step with
  | inl err =>
      Proc.emit
        (EvPrintError
           ("Could not fetch checklist for step " +:+ step +:+ ": " +:+ err)) ;;
      Proc.halt (Exited 1)
  | inr checklist => Proc.ret (items ++ checklist)
  end.

Definition expandFile (w : World) (runbook : option RunbookClient)
    (expanded : list ChecklistFile) (file : ChecklistFile)
  : Proc.t (list ChecklistFile) :=
  if (0 <? length (RunbookSteps file))%nat then
    let* items :=
      Proc.foldM (fetchStep w runbook) (Checklist file) (RunbookSteps file) in
    Proc.ret (expanded ++ [setChecklist file items])
  else Proc.ret (expanded ++ [file]).

Definition expandRunbook (w : World) (runbook : option RunbookClient)
    (checklistFiles : list ChecklistFile) : Proc.t (list ChecklistFile) :=
  Proc.foldM (expandFile w runbook) [] checklistFiles.

(** ** Phase 5 (lines 116-129): [-l], list and exit *)

Definition listItem (i : Z) (item : ChecklistItem) : Proc.t Z :=
  let i := (i + 1)%Z in
  Proc.emit (EvPrintf (" %2d. %s" +:+ nl) [AInt i; AStr (Title item)]) ;;
  Proc.ret i.

Definition listFile (i : Z) (file : ChecklistFile) : Proc.t Z :=
  Proc.emit (EvPrintf ("In %s (%s):" +:+ nl)
               [AStr (Filename file); AStr (FileTitle file)]) ;;
  let* i := Proc.foldM listItem i (Checklist file) in
  Proc.emit (EvPrintln []) ;;
  Proc.ret i.

Definition listAndExit (fl : Flags) (checklistFiles : list ChecklistFile)
  : Proc.t unit :=
  if fList fl then
    let* i := Proc.foldM listFile 0%Z checklistFiles in
    Proc.emit (EvPrintf ("%d items in total" +:+ nl) [AInt i]) ;;
    Proc.halt (Exited 0)
  else Proc.ret tt.

(** ** Phase 6 (lines 131-164): configuration, runner, required tools *)

Definition addFile (w : World) (config : Config) (checklist : ChecklistFile)
  : Proc.t Config :=
  match AddChecklistFile w config checklist with
  | inl err => Proc.emit (EvPrintError err) ;; Proc.halt Returned
  | inr config' => Proc.ret config'
  end.

Definition prepareRunner (w : World) (fl : Flags)
    (checklistFiles : list ChecklistFile) : Proc.t Runner :=
  match CreateConfig w with
  | inl err => Proc.emit (EvPrintError err) ;; Proc.halt Returned
  | inr config =>
      let config :=
        if negb (String.eqb (fTempDir fl) "")
        then mkConfig (fTempDir fl) (ConfigFiles config)
        else config in
      let* config := Proc.foldM (addFile w) config checklistFiles in
      match CreateRunner w config with
      | inl err => Proc.emit (EvPrintError err) ;; Proc.halt Returned
      | inr runner =>
          let missing := GetMissingTools w runner in
          if (0 <? length missing)%nat then
            Proc.emit
              (EvPrintError "There are missing executables from your path:") ;;
            Proc.emits
              (map (fun name =>
                      EvPrintf (" ‣ Did not find '%s'" +:+ nl) [AStr name])
                   missing) ;;
            Proc.halt Returned
          else Proc.ret runner
      end
  end.

(** ** Phase 7 (lines 166-176): the banner and the flattened item list *)

Definition banner (checklistFiles : list ChecklistFile) : Proc.t unit :=
  Proc.emit (EvPrintln ["=========================================="]) ;;
  match checklistFiles with
  | first :: _ =>
      Proc.emit (EvPrintf (" %s Pre-Flight Checklist" +:+ nl)
                   [AStr (FileTitle first)]) ;;
      Proc.emit (EvPrintln ["=========================================="]) ;;
      Proc.emit (EvPrintln [])
  | [] => Proc.halt (Panicked "index out of range [0] with length 0")
  end.

(** A Go slice of items: the elements up to its length, and the capacity of
    its backing array.  The slots of the array between length and capacity
    hold zero values, since [append] only ever writes at the length. *)
Record ItemSlice := mkSlice {
  elems : list ChecklistItem;
  capacity : nat;
}.

(** [var allItems []ChecklistItem] *)
Definition nilSlice : ItemSlice := mkSlice [] 0.

(** [append(s, item)]: in place while the capacity lasts, else into a new
    array whose capacity the runtime chooses, at least the needed length. *)
Definition appendItem (w : World) (s : ItemSlice) (item : ChecklistItem)
  : ItemSlice :=
  let needed := S (length (elems s)) in
  if (needed <=? capacity s)%nat
  then mkSlice (elems s ++ [item]) (capacity s)
  else mkSlice (elems s ++ [item])
               (Nat.max needed (growslice w (capacity s) needed)).

Definition collectItems (w : World) (checklistFiles : list ChecklistFile)
  : ItemSlice :=
  fold_left (fun all file => fold_left (appendItem w) (Checklist file) all)
            checklistFiles nilSlice.

(** The backing array of a slice, as far as its capacity. *)
Definition backing (s : ItemSlice) : list ChecklistItem :=
  elems s ++ repeat zeroItem (capacity s - length (elems s)).

(** [s[:high]]: for a slice the upper bound is the capacity, not the
    length. *)
Definition sliceTo (s : ItemSlice) (high : Z) : option (list ChecklistItem) :=
  if ((high <? 0) || (Z.of_nat (capacity s) <? high))%Z then None
  else Some (firstn (Z.to_nat high) (backing s)).

(** [s[low:]]: the upper bound defaults to the length, so [low] must not
    exceed it. *)
Definition sliceOff (s : ItemSlice) (low : Z) : option (list ChecklistItem) :=
  if ((low <? 0) || (Z.of_nat (length (elems s)) <? low))%Z then None
  else Some (skipn (Z.to_nat low) (elems s)).

(** ** Phase 8 (lines 178-228): the items *)

(** The note of line 210, built from the captured output. *)
Definition failureReason (result : ExecResult) : string :=
  "Script failed with:" +:+ nl +:+ "```" +:+ nl +:+ Stdout result
  +:+ nl +:+ "---" +:+ nl +:+ Stderr result +:+ nl +:+ "```" +:+ nl.

(** The body of the loop of line 182; the state is [failure]. *)
Definition checkItem (w : World) (fl : Flags) (runbook : option RunbookClient)
    (runner : Runner) (failure : bool) (item : ChecklistItem) : Proc.t bool :=
  if failure then
    Proc.emit (EvSkipItem item "ABORTED") ;; Proc.ret failure
  else if fAuto fl then
    if negb (CanCheckItem w item) then
      Proc.emit (EvSkipItem item "NO CHECKS") ;; Proc.ret failure
    else
      Proc.emit (EvRunItemCheck item) ;;
      let '(value, serr, ok, err) := RunItemCheck w item runner in
      match err with
      | Some e => Proc.emit (EvFailItem item e serr) ;; Proc.ret true
      | None =>
          if negb ok then
            Proc.emit (EvFailItem item value serr) ;; Proc.ret true
          else Proc.emit (EvPassItem item value) ;; Proc.ret failure
      end
  else
    Proc.emit (EvCheckItem item) ;;
    let '(ok, result) := UxCheckItem w item runner in
    if negb ok then
      (if negb (String.eqb (RunbookID item) "") then
         let reason := failureReason result in
         Proc.emit
           (EvItemUpdate runbook (RunbookStep item) (RunbookID item) 2 reason)
       else Proc.ret tt) ;;
      Proc.ret true
    else
      Proc.emit
        (EvItemUpdate runbook (RunbookStep item) (RunbookID item) 1 "") ;;
      Proc.ret failure.

Definition blankItems (allItems : ItemSlice) (skip : Z) : Proc.t unit :=
  match sliceTo allItems skip with
  | None => Proc.halt (Panicked "slice bounds out of range")
  | Some blanks => Proc.emits (map EvBlankItem blanks)
  end.

Definition activeItems (w : World) (fl : Flags)
    (runbook : option RunbookClient) (runner : Runner) (allItems : ItemSlice)
  : Proc.t bool :=
  match sliceOff allItems (fSkip fl) with
  | None => Proc.halt (Panicked "slice bounds out of range")
  | Some active => Proc.foldM (checkItem w fl runbook runner) false active
  end.

(** ** Phase 9 (lines 230-238): the verdict.  [Bold] and [Red] only add
    terminal styling and are left out of the printed text. *)
Definition verdict (failure : bool) : Proc.t unit :=
  if failure then
    Proc.emit (EvPrintln []) ;;
    Proc.emit
      (EvPrintln ["🚨 "; "There was a failed item. You are not clear to continue"]) ;;
    Proc.halt (Exited 1)
  else
    Proc.emit (EvPrintln []) ;;
    Proc.emit
      (EvPrintln ["🍺 "; "All checks are passing. You are clear to continue"]) ;;
    Proc.halt (Exited 0).

(** ** [func main] *)

(** Lines 23-164: everything before the first item is touched. *)
Definition startup (w : World) (fl : Flags)
  : Proc.t (option RunbookClient * Runner * list ChecklistFile) :=
  let* (useRunbook, checklistFiles) := loadChecklists w fl in
  let* runbook := createRunbook w useRunbook in
  let* checklistFiles := resolveEnv w checklistFiles in
  let* checklistFiles := expandRunbook w runbook checklistFiles in
  listAndExit fl checklistFiles ;;
  let* runner := prepareRunner w fl checklistFiles in
  Proc.ret (runbook, runner, checklistFiles).

(** Lines 166-238. *)
Definition execute (w : World) (fl : Flags) (runbook : option RunbookClient)
    (runner : Runner) (checklistFiles : list ChecklistFile) : Proc.t unit :=
  banner checklistFiles ;;
  let allItems := collectItems w checklistFiles in
  blankItems allItems (fSkip fl) ;;
  let* failure := activeItems w fl runbook runner allItems in
  verdict failure.

Definition program (w : World) (fl : Flags) : Proc.t unit :=
  let* (runbook, runner, checklistFiles) := startup w fl in
  execute w fl runbook runner checklistFiles.

(** The trace of a run and the way it ends; falling off the end of [main]
    is a return. *)
Definition main (w : World) (fl : Flags) : list Event * Outcome :=
  match program w fl with
  | (tr, inl o) => (tr, o)
  | (tr, inr _) => (tr, Returned)
  end.

(** ** Sample collaborators, for running [main] on concrete inputs *)

Module Sample.

(** The growth of the Go runtime for small slices: double the old capacity,
    or take the needed length when that is larger. *)
Definition doubling (old needed : nat) : nat := Nat.max needed (2 * old).

Definition emptyConfig : Config := mkConfig "" [].

(** What bash answers to the few commands used below. *)
Definition shell (cmd : string) : string * option error :=
  if String.eqb cmd "echo h" then ("h" +:+ nl, None)
  else if String.eqb cmd "exit 1" then ("", Some "exit status 1")
  else ("", None).

(** A check passes unless its script is [exit 1]. *)
Definition runScript (item : ChecklistItem) (runner : Runner)
  : string * string * bool * option error :=
  if String.eqb (Script item) "exit 1" then ("", "", false, None)
  else ("ok", "", true, None).

(** A world where every collaborator answers: [files] maps a file name to
    its parsed checklist, [env] is the process environment, [tools] the
    executables the runner misses. *)
Definition world (files : string -> option ChecklistFile)
    (env : string -> string) (tools : list string) : World :=
  {| LoadChecklist := fun fname =>
       match files fname with
       | Some file => inr file
       | None => inl ("open " +:+ fname +:+ ": no such file or directory")
       end;
     CreateRunbookClientWithEnvConfig := inr TheRunbookClient;
     BashOutput := shell;
     Getenv := env;
     ChecklistFromRunbook := fun _ _ => inr [];
     CreateConfig := inr emptyConfig;
     AddChecklistFile := fun config file =>
       inr (mkConfig (UserTempDir config) (ConfigFiles config ++ [file]));
     CreateRunner := fun config => inr (mkRunner config);
     GetMissingTools := fun _ => tools;
     CanCheckItem := fun item => negb (String.eqb (Script item) "");
     RunItemCheck := runScript;
     UxCheckItem := fun item _ => (true, mkResult "" "");
     growslice := doubling;
     rangeOrder := fun _ m => map_to_list m;
     rangeOrder_visits := fun _ m => Permutation_refl (map_to_list m) |}.

Definition noEnv (key : string) : string := "".

Definition oneFile (name : string) (file : ChecklistFile) (fname : string)
  : option ChecklistFile :=
  if String.eqb fname name then Some file else None.

Definition interactive (args : list string) : Flags :=
  mkFlags "" 0 false false args.

Definition unattended (skip : Z) (args : list string) : Flags :=
  mkFlags "" skip false true args.

(** Three local items: a manual one, one whose check fails, a manual one. *)
Definition backup : ChecklistItem := mkItem "Backup taken" "" "" "".
Definition quorum : ChecklistItem := mkItem "Quorum healthy" "exit 1" "" "".
Definition notice : ChecklistItem := mkItem "Notice sent" "" "" "".

Definition upgrade : ChecklistFile :=
  mkFile "Upgrade" "upgrade.yaml" ∅ [backup; quorum; notice] [].

Definition upgradeWorld : World :=
  world (oneFile "upgrade.yaml" upgrade) noEnv [].

(** One item tracked by the runbook service, with a passing check. *)
Definition drained : ChecklistItem :=
  mkItem "Nodes drained" "kubectl get nodes" "item-7" "deploy-step-7".

Definition tracked : ChecklistFile :=
  mkFile "Deploy" "deploy.yaml" ∅ [drained] [].

Definition trackedWorld : World :=
  world (oneFile "deploy.yaml" tracked) noEnv [].

(** One local item and no runbook anywhere. *)
Definition localOnly : ChecklistFile :=
  mkFile "Local" "local.yaml" ∅ [backup] [].

Definition localWorld : World :=
  world (oneFile "local.yaml" localOnly) noEnv [].

(** Environment requirements: a required variable, a command, a literal. *)
Definition requirements : ChecklistFile :=
  mkFile "Env" "env.yaml"
    (<["API_KEY" := "<"]>
       (<["GREETING" := "${echo hi"]> (<["DATA_DIR" := "/srv"]> ∅)))
    [backup] [].

Definition apiKeySet (key : string) : string :=
  if String.eqb key "API_KEY" then "secret" else "".

Definition requirementsWorld : World :=
  world (oneFile "env.yaml" requirements) apiKeySet [].

(** Two files whose requirements both fail. *)
Definition brokenCommand : ChecklistFile :=
  mkFile "A" "a.yaml" (<["VERSION" := "${exit 1}"]> ∅) [backup] [].

Definition missingVariable : ChecklistFile :=
  mkFile "B" "b.yaml" (<["API_KEY" := "<"]> ∅) [notice] [].

Definition brokenWorld : World :=
  world (fun fname =>
           if String.eqb fname "a.yaml" then Some brokenCommand
           else if String.eqb fname "b.yaml" then Some missingVariable
           else None)
        noEnv [].

(** The runner misses two executables. *)
Definition toollessWorld : World :=
  world (oneFile "local.yaml" localOnly) noEnv ["jq"; "curl"].

Definition upgradeRunner : Runner := mkRunner (mkConfig "" [upgrade]).
Definition trackedRunner : Runner := mkRunner (mkConfig "" [tracked]).

Definition resolvedRequirements : ChecklistFile :=
  setEnv requirements
    (<["API_KEY" := "<"]>
       (<["GREETING" := "h"]> (<["DATA_DIR" := "/srv"]> ∅))).

End Sample.

(** ** Derived views of the run, used to state the properties *)

(** The trace and the final state of a loop whose body never ends the
    process: [ev] is what an iteration prints, [next] the state it leaves. *)
Fixpoint loopTrace {A B} (ev : A -> B -> list Event) (next : A -> B -> A)
    (acc : A) (xs : list B) : list Event :=
  match xs with
  | [] => []
  | x :: rest => ev acc x ++ loopTrace ev next (next acc x) rest
  end.

(** The command a [${...}] value of length at least 3 stands for: line 80. *)
Definition commandOf (value : string) : string :=
  slice value 2 (len value - 1).

(** What resolving one entry prints and runs. *)
Definition entryEvents (w : World) (key value : string) : list Event :=
  if HasPrefix value "${" then
    if (len value <? 3)%nat then []
    else
      EvExec (commandOf value) ::
      match snd (BashOutput w (commandOf value)) with
      | Some e =>
          [EvPrintError
             ("Unable to execute '" +:+ commandOf value +:+ "': " +:+ e)]
      | None => []
      end
  else if String.eqb value "<" then
    if String.eqb (Getenv w key) "" then
      [EvPrintError ("Missing required " +:+ key +:+ " environment variable")]
    else []
  else [].

(** Whether resolving one entry records a failure. *)
Definition entryFails (w : World) (key value : string) : bool :=
  if HasPrefix value "${" then
    if (len value <? 3)%nat then false
    else match snd (BashOutput w (commandOf value)) with
         | Some _ => true
         | None => false
         end
  else if String.eqb value "<" then String.eqb (Getenv w key) ""
  else false.

(** The value an entry holds once the pass is over. *)
Definition resolvedValue (w : World) (value : string) : string :=
  if HasPrefix value "${" then
    if (len value <? 3)%nat then ""
    else TrimRight (fst (BashOutput w (commandOf value))) trimCutset
  else value.

Definition entryUpdate (w : World) (env : gmap string string)
    (kv : string * string) : gmap string string :=
  if HasPrefix (snd kv) "${" then <[fst kv := resolvedValue w (snd kv)]> env
  else env.

(** What resolving the entries of one map prints and runs, when they are
    visited in the given order. *)
Definition orderEvents (w : World) (order : list (string * string))
  : list Event :=
  flat_map (fun kv => entryEvents w (fst kv) (snd kv)) order.

(** The orders in which a run ranges over the maps of the checklists, the
    first of them standing at position [i]. *)
Fixpoint rangeOrders (w : World) (i : nat) (files : list ChecklistFile)
  : list (list (string * string)) :=
  match files with
  | [] => []
  | file :: rest => rangeOrder w i (Env file) :: rangeOrders w (S i) rest
  end.

(** An order in which the entries of a checklist's map can be visited. *)
Definition visitsEntries (file : ChecklistFile)
    (order : list (string * string)) : Prop :=
  Permutation order (map_to_list (Env file)).

(** What the resolution pass of a run prints and runs. *)
Definition envTrace (w : World) (files : list ChecklistFile) : list Event :=
  flat_map (orderEvents w) (rangeOrders w 0 files).

(** Whether some entry of the checklist fails; a matter of the entries, not
    of the order they are visited in. *)
Definition fileFails (w : World) (file : ChecklistFile) : bool :=
  existsb (fun kv => entryFails w (fst kv) (snd kv)) (map_to_list (Env file)).

Definition resolvedFile (w : World) (file : ChecklistFile) : ChecklistFile :=
  setEnv file (resolvedValue w <$> Env file).

(** Whether executing an item sets [failure]: a failing result or an
    execution error of its check (unattended), a failed interactive check. *)
Definition itemFails (w : World) (fl : Flags) (runner : Runner)
    (item : ChecklistItem) : bool :=
  if fAuto fl then
    CanCheckItem w item &&
    (let '(_, _, ok, err) := RunItemCheck w item runner in
     match err with
     | Some _ => true
     | None => negb ok
     end)
  else negb (fst (UxCheckItem w item runner)).

(** What one iteration of the loop of line 182 does. *)
Definition itemTrace (w : World) (fl : Flags) (runbook : option RunbookClient)
    (runner : Runner) (failure : bool) (item : ChecklistItem) : list Event :=
  fst (checkItem w fl runbook runner failure item).

Definition nextFailure (w : World) (fl : Flags) (runner : Runner)
    (failure : bool) (item : ChecklistItem) : bool :=
  failure || itemFails w fl runner item.

Definition activeTrace (w : World) (fl : Flags) (runbook : option RunbookClient)
    (runner : Runner) : bool -> list ChecklistItem -> list Event :=
  loopTrace (itemTrace w fl runbook runner) (nextFailure w fl runner).

(** What lines 166-169 print, given the title of the first file. *)
Definition bannerLines (title : string) : list Event :=
  [EvPrintln ["=========================================="];
   EvPrintf (" %s Pre-Flight Checklist" +:+ nl) [AStr title];
   EvPrintln ["=========================================="];
   EvPrintln []].

Definition firstTitle (checklistFiles : list ChecklistFile) : string :=
  match checklistFiles with
  | first :: _ => FileTitle first
  | [] => ""
  end.

Definition verdictLines (failure : bool) : list Event :=
  fst (verdict failure).

(** [allItems] as a list: the items of every file, in file order. *)
Definition mergedItems (checklistFiles : list ChecklistFile)
  : list ChecklistItem :=
  flat_map Checklist checklistFiles.

Definition outcomeOf {A} (r : Outcome + A) : Outcome :=
  match r with
  | inl o => o
  | inr _ => Returned
  end.

(** Commands run and runbook steps fetched: the events that touch no item
    and report no error. *)
Definition isSetupEvent (e : Event) : bool :=
  match e with
  | EvExec _ | EvFetch _ => true
  | _ => false
  end.

(** A call into the Runner for an item. *)
Definition isAttempt (e : Event) : bool :=
  match e with
  | EvRunItemCheck _ | EvCheckItem _ => true
  | _ => false
  end.

(** A report to the runbook service. *)
Definition isUpdate (e : Event) : bool :=
  match e with
  | EvItemUpdate _ _ _ _ _ => true
  | _ => false
  end.

(** An event of the item loop that concerns [item]. *)
Definition aboutItem (item : ChecklistItem) (e : Event) : Prop :=
  match e with
  | EvSkipItem i _ | EvRunItemCheck i | EvFailItem i _ _ | EvPassItem i _
  | EvCheckItem i => i = item
  | EvItemUpdate _ step id _ _ => step = RunbookStep item /\ id = RunbookID item
  | _ => False
  end.

(** The events of a loop, one chunk per iteration. *)
Fixpoint loopChunks {A B} (ev : A -> B -> list Event) (next : A -> B -> A)
    (acc : A) (xs : list B) : list (list Event) :=
  match xs with
  | [] => []
  | x :: rest => ev acc x :: loopChunks ev next (next acc x) rest
  end.

(** ** Further views: loading, expansion, listing *)

(** The checklist a [runbook:<step>] argument stands for: lines 35-38. *)
Definition syntheticFile (stepId : string) : ChecklistFile :=
  mkFile "Runbook Checklist" "" ∅ [] [stepId].

(** What a command-line argument contributes to [checklistFiles]. *)
Definition argFile (w : World) (fname : string) (file : ChecklistFile) : Prop :=
  if HasPrefix fname "runbook:" then file = syntheticFile (sliceFrom fname 8)
  else LoadChecklist w fname = inr file.

(** Whether a checklist makes [main] set [useRunbook]: lines 49-56 (and
    line 34 for a synthetic checklist, which has one step). *)
Definition needsRunbook (file : ChecklistFile) : bool :=
  (0 <? length (RunbookSteps file))%nat
  || existsb (fun item => negb (String.eqb (RunbookID item) "")) (Checklist file).

(** The items the runbook service returns for a list of steps, in step
    order. *)
Definition fetchedItems (w : World) (runbook : option RunbookClient)
    (steps : list string) : list ChecklistItem :=
  flat_map (fun step =>
              match ChecklistFromRunbook w runbook step with
              | inr checklist => checklist
              | inl _ => []
              end) steps.

Definition fetchSucceeds (w : World) (runbook : option RunbookClient)
    (step : string) : Prop :=
  exists checklist, ChecklistFromRunbook w runbook step = inr checklist.

(** A checklist after lines 102-114. *)
Definition expandedFile (w : World) (runbook : option RunbookClient)
    (file : ChecklistFile) : ChecklistFile :=
  setChecklist file
    (Checklist file ++ fetchedItems w runbook (RunbookSteps file)).

(** The lines [-l] prints for a run of items, the counter standing at [i]. *)
Fixpoint itemLinesFrom (i : Z) (items : list ChecklistItem) : list Event :=
  match items with
  | [] => []
  | item :: rest =>
      EvPrintf (" %2d. %s" +:+ nl) [AInt (i + 1); AStr (Title item)]
      :: itemLinesFrom (i + 1) rest
  end.

Definition isItemLine (e : Event) : bool :=
  match e with
  | EvPrintf format [AInt _; AStr _] => String.eqb format (" %2d. %s" +:+ nl)
  | _ => false
  end.

(** The commands a trace ran through bash, in order. *)
Definition commandsRun (tr : list Event) : list string :=
  flat_map (fun e => match e with EvExec cmd => [cmd] | _ => [] end) tr.

(** An entry whose value is run as a command: lines 74-80. *)
Definition isCommandEntry (kv : string * string) : bool :=
  HasPrefix (snd kv) "${" && (3 <=? len (snd kv))%nat.

(** Every byte of [s] is in [cutset]. *)
Fixpoint allInCutset (s cutset : string) : bool :=
  match s with
  | EmptyString => true
  | String c rest => inCutset c cutset && allInCutset rest cutset
  end.

(** The last byte of [s] is in [cutset]. *)
Fixpoint endsInCutset (s cutset : string) : bool :=
  match s with
  | EmptyString => false
  | String c EmptyString => inCutset c cutset
  | String _ rest => endsInCutset rest cutset
  end.

(** A report to the runbook service is either Completed (1) with an empty
    note, or Failed (2) for an item that has an id. *)
Definition wellFormedUpdate (e : Event) : Prop :=
  match e with
  | EvItemUpdate _ _ id status note =>
      (status = 1%Z /\ note = "") \/ (status = 2%Z /\ id <> "")
  | _ => True
  end.

(** A process that ends early ends in a way [P] allows. *)
Definition haltsWith {A} (P : Outcome -> Prop) (m : Proc.t A) : Prop :=
  match snd m with
  | inl o => P o
  | inr _ => True
  end.

Definition plainExit (o : Outcome) : Prop :=
  o = Returned \/ o = Exited 0 \/ o = Exited 1.

(** The configuration after lines 137-139: [--temp], when given, replaces
    the temporary directory. *)
Definition configWithTemp (fl : Flags) (config : Config) : Config :=
  if negb (String.eqb (fTempDir fl) "")
  then mkConfig (fTempDir fl) (ConfigFiles config)
  else config.

(** What processing one item of the active region consists of, spelled out
    case by case from lines 183-226: [aborted] says whether an earlier
    active item has failed. *)
Definition itemEvents (w : World) (fl : Flags)
    (runbook : option RunbookClient) (runner : Runner) (aborted : bool)
    (item : ChecklistItem) : list Event :=
  if aborted then [EvSkipItem item "ABORTED"]
  else if fAuto fl then
    if CanCheckItem w item then
      [EvRunItemCheck item;
       match RunItemCheck w item runner with
       | (_, serr, _, Some e) => EvFailItem item e serr
       | (value, serr, false, None) => EvFailItem item value serr
       | (value, _, true, None) => EvPassItem item value
       end]
    else [EvSkipItem item "NO CHECKS"]
  else
    EvCheckItem item ::
    match UxCheckItem w item runner with
    | (true, _) =>
        [EvItemUpdate runbook (RunbookStep item) (RunbookID item) 1 ""]
    | (false, result) =>
        if String.eqb (RunbookID item) "" then []
        else [EvItemUpdate runbook (RunbookStep item) (RunbookID item) 2
                (failureReason result)]
    end.

(** The active region, item after item: each item is processed knowing
    whether an item before it has failed. *)
Fixpoint activeEvents (w : World) (fl : Flags)
    (runbook : option RunbookClient) (runner : Runner) (aborted : bool)
    (items : list ChecklistItem) : list Event :=
  match items with
  | [] => []
  | item :: rest =>
      itemEvents w fl runbook runner aborted item
      ++ activeEvents w fl runbook runner
           (aborted || itemFails w fl runner item) rest
  end.

(** ** Further sample collaborators *)

Module Fixtures.

Import Sample.

(** The runbook service knows one step, with two items. *)
Definition cordon : ChecklistItem :=
  mkItem "Nodes cordoned" "kubectl cordon" "item-1" "deploy-step-7".
Definition snapshot : ChecklistItem :=
  mkItem "Snapshot taken" "" "item-2" "deploy-step-7".

Definition fetch (runbook : option RunbookClient) (step : string)
  : error + list ChecklistItem :=
  if String.eqb step "deploy-step-7" then inr [cordon; snapshot]
  else inl "404 Not Found".

Definition withRunbook (w : World) : World :=
  {| LoadChecklist := LoadChecklist w;
     CreateRunbookClientWithEnvConfig := CreateRunbookClientWithEnvConfig w;
     BashOutput := BashOutput w;
     Getenv := Getenv w;
     ChecklistFromRunbook := fetch;
     CreateConfig := CreateConfig w;
     AddChecklistFile := AddChecklistFile w;
     CreateRunner := CreateRunner w;
     GetMissingTools := GetMissingTools w;
     CanCheckItem := CanCheckItem w;
     RunItemCheck := RunItemCheck w;
     UxCheckItem := UxCheckItem w;
     growslice := growslice w;
     rangeOrder := rangeOrder w;
     rangeOrder_visits := rangeOrder_visits w |}.

(** The runbook client cannot be configured. *)
Definition withoutClient (w : World) : World :=
  {| LoadChecklist := LoadChecklist w;
     CreateRunbookClientWithEnvConfig := inl "RUNBOOK_URL is not set";
     BashOutput := BashOutput w;
     Getenv := Getenv w;
     ChecklistFromRunbook := ChecklistFromRunbook w;
     CreateConfig := CreateConfig w;
     AddChecklistFile := AddChecklistFile w;
     CreateRunner := CreateRunner w;
     GetMissingTools := GetMissingTools w;
     CanCheckItem := CanCheckItem w;
     RunItemCheck := RunItemCheck w;
     UxCheckItem := UxCheckItem w;
     growslice := growslice w;
     rangeOrder := rangeOrder w;
     rangeOrder_visits := rangeOrder_visits w |}.

(** A configuration that refuses the checklist named [b.yaml]. *)
Definition withPickyConfig (w : World) : World :=
  {| LoadChecklist := LoadChecklist w;
     CreateRunbookClientWithEnvConfig := CreateRunbookClientWithEnvConfig w;
     BashOutput := BashOutput w;
     Getenv := Getenv w;
     ChecklistFromRunbook := ChecklistFromRunbook w;
     CreateConfig := CreateConfig w;
     AddChecklistFile := fun config file =>
       if String.eqb (Filename file) "b.yaml" then inl "duplicate variable"
       else AddChecklistFile w config file;
     CreateRunner := CreateRunner w;
     GetMissingTools := GetMissingTools w;
     CanCheckItem := CanCheckItem w;
     RunItemCheck := RunItemCheck w;
     UxCheckItem := UxCheckItem w;
     growslice := growslice w;
     rangeOrder := rangeOrder w;
     rangeOrder_visits := rangeOrder_visits w |}.

(** A machine where bash cannot be started. *)
Definition withoutBash (w : World) : World :=
  {| LoadChecklist := LoadChecklist w;
     CreateRunbookClientWithEnvConfig := CreateRunbookClientWithEnvConfig w;
     BashOutput := fun _ =>
       ("", Some "exec: bash: executable file not found in $PATH");
     Getenv := Getenv w;
     ChecklistFromRunbook := ChecklistFromRunbook w;
     CreateConfig := CreateConfig w;
     AddChecklistFile := AddChecklistFile w;
     CreateRunner := CreateRunner w;
     GetMissingTools := GetMissingTools w;
     CanCheckItem := CanCheckItem w;
     RunItemCheck := RunItemCheck w;
     UxCheckItem := UxCheckItem w;
     growslice := growslice w;
     rangeOrder := rangeOrder w;
     rangeOrder_visits := rangeOrder_visits w |}.

(** A run that ranges over every map in the opposite order. *)
Definition withReversedRange (w : World) : World :=
  {| LoadChecklist := LoadChecklist w;
     CreateRunbookClientWithEnvConfig := CreateRunbookClientWithEnvConfig w;
     BashOutput := BashOutput w;
     Getenv := Getenv w;
     ChecklistFromRunbook := ChecklistFromRunbook w;
     CreateConfig := CreateConfig w;
     AddChecklistFile := AddChecklistFile w;
     CreateRunner := CreateRunner w;
     GetMissingTools := GetMissingTools w;
     CanCheckItem := CanCheckItem w;
     RunItemCheck := RunItemCheck w;
     UxCheckItem := UxCheckItem w;
     growslice := growslice w;
     rangeOrder := fun i m => rev (rangeOrder w i m);
     rangeOrder_visits := fun i m =>
       Permutation_trans
         (Permutation_sym (Permutation_rev (rangeOrder w i m)))
         (rangeOrder_visits w i m) |}.

(** A checklist with two requirements that both fail, and one with two
    commands. *)
Definition twiceBroken : ChecklistFile :=
  mkFile "C" "c.yaml"
    (<["VERSION" := "${exit 1}"]> (<["API_KEY" := "<"]> ∅)) [backup] [].

Definition twoCommands : ChecklistFile :=
  mkFile "D" "d.yaml"
    (<["GREETING" := "${echo h}"]> (<["VERSION" := "${exit 1}"]> ∅))
    [backup] [].

Definition twiceBrokenWorld : World :=
  world (oneFile "c.yaml" twiceBroken) noEnv [].

(** A local checklist that also names a runbook step. *)
Definition rollout : ChecklistFile :=
  mkFile "Rollout" "rollout.yaml" ∅ [backup] ["deploy-step-7"].

Definition rolloutBroken : ChecklistFile :=
  mkFile "Rollout" "rollout.yaml" ∅ [backup] ["deploy-step-7"; "deploy-step-9"].

Definition rolloutWorld : World :=
  withRunbook (world (oneFile "rollout.yaml" rollout) noEnv []).

(** Two plain local checklists. *)
Definition plainA : ChecklistFile :=
  mkFile "A" "a.yaml" (<["DATA_DIR" := "/srv"]> ∅) [backup; quorum] [].
Definition plainB : ChecklistFile :=
  mkFile "B" "b.yaml" ∅ [notice] [].

Definition plainFiles (fname : string) : option ChecklistFile :=
  if String.eqb fname "a.yaml" then Some plainA
  else if String.eqb fname "b.yaml" then Some plainB
  else None.

Definition plainWorld : World := world plainFiles noEnv [].

Definition listing (args : list string) : Flags := mkFlags "" 0 true false args.

(** Two manual items only. *)
Definition manualOnly : ChecklistFile :=
  mkFile "Manual" "manual.yaml" ∅ [backup; notice] [].

Definition manualWorld : World :=
  world (oneFile "manual.yaml" manualOnly) noEnv [].

End Fixtures.

(** * Properties *)

(** ** The monad *)

Section ProcFacts.

Context {A B : Type}.

Lemma bind_ret (a : A) (k : A -> Proc.t B) : Proc.bind (Proc.ret a) k = k a.
Proof. unfold Proc.bind, Proc.ret. now destruct (k a). Qed.

Lemma bind_value (tr : list Event) (a : A) (k : A -> Proc.t B) :
  Proc.bind (tr, inr a) k = (tr ++ fst (k a), snd (k a)).
Proof. unfold Proc.bind. now destruct (k a). Qed.

Lemma bind_halt (tr : list Event) (o : Outcome) (k : A -> Proc.t B) :
  Proc.bind (tr, inl o) k = (tr, inl o).
Proof. reflexivity. Qed.

(** A successful bind splits into a successful first part and a successful
    continuation. *)
Lemma bind_inr (m : Proc.t A) (k : A -> Proc.t B) tr (b : B) :
  Proc.bind m k = (tr, inr b) ->
  exists tr1 a tr2, m = (tr1, inr a) /\ k a = (tr2, inr b) /\ tr = tr1 ++ tr2.
Proof.
  destruct m as [tr1 [o | a]]; simpl; [discriminate |].
  destruct (k a) as [tr2 r] eqn:Hk. intros [= <- ->]. now exists tr1, a, tr2.
Qed.

End ProcFacts.

Lemma foldM_steps {A B} (body : A -> B -> Proc.t A) ev next :
  (forall acc x, body acc x = (ev acc x, inr (next acc x))) ->
  forall xs acc,
    Proc.foldM body acc xs = (loopTrace ev next acc xs, inr (fold_left next xs acc)).
Proof.
  intros Hbody xs. induction xs as [| x rest IH]; intros acc; [reflexivity |].
  simpl. rewrite Hbody, bind_value, IH. reflexivity.
Qed.

Lemma loopTrace_app {A B} (ev : A -> B -> list Event) next (xs ys : list B) :
  forall acc,
    loopTrace ev next acc (xs ++ ys) =
    loopTrace ev next acc xs ++ loopTrace ev next (fold_left next xs acc) ys.
Proof.
  induction xs as [| x rest IH]; intros acc; [reflexivity |].
  simpl. now rewrite IH, app_assoc.
Qed.

(** ** Environment resolution, entry by entry *)

Lemma resolveEntry_step w env failed kv :
  resolveEntry w (env, failed) kv =
  (entryEvents w (fst kv) (snd kv),
   inr (entryUpdate w env kv, failed || entryFails w (fst kv) (snd kv))).
Proof.
  destruct kv as [key value].
  unfold resolveEntry, entryEvents, entryFails, entryUpdate, resolvedValue,
    commandOf; simpl.
  destruct (HasPrefix value "${").
  - destruct (len value <? 3)%nat; [now rewrite orb_false_r |].
    destruct (BashOutput w _) as [out [e |]]; simpl.
    + now rewrite orb_true_r.
    + now rewrite orb_false_r.
  - destruct (String.eqb value "<"); [| now rewrite orb_false_r].
    destruct (String.eqb (Getenv w key) ""); simpl.
    + now rewrite orb_true_r.
    + now rewrite orb_false_r.
Qed.

(** Folding the updates over the entries of a map changes every command
    entry and nothing else. *)
Lemma entryUpdate_fold_lookup w (l : list (string * string)) :
  forall (m0 : gmap string string) k,
    NoDup (l.*1) ->
    fold_left (entryUpdate w) l m0 !! k =
    match (list_to_map l : gmap string string) !! k with
    | Some v => if HasPrefix v "${" then Some (resolvedValue w v) else m0 !! k
    | None => m0 !! k
    end.
Proof.
  induction l as [| [k1 v1] l IH]; intros m0 k Hnd; [reflexivity |].
  simpl in Hnd. apply NoDup_cons in Hnd as [Hk1 Hnd].
  simpl. rewrite IH by assumption.
  destruct (decide (k = k1)) as [-> | Hne].
  - rewrite lookup_insert_eq.
    rewrite (not_elem_of_list_to_map_1 _ _ Hk1).
    unfold entryUpdate; simpl.
    destruct (HasPrefix v1 "${"); [apply lookup_insert_eq | reflexivity].
  - rewrite lookup_insert_ne by congruence.
    assert (entryUpdate w m0 (k1, v1) !! k = m0 !! k) as ->.
    { unfold entryUpdate; simpl. destruct (HasPrefix v1 "${"); [| reflexivity].
      apply lookup_insert_ne. congruence. }
    reflexivity.
Qed.

Lemma entryUpdate_fold w (m : gmap string string) order :
  Permutation order (map_to_list m) ->
  fold_left (entryUpdate w) order m = resolvedValue w <$> m.
Proof.
  intros Hvisits.
  assert (NoDup (order.*1)) as Hnodup
    by (rewrite Hvisits; apply NoDup_fst_map_to_list).
  apply map_eq. intros k.
  rewrite entryUpdate_fold_lookup by assumption.
  rewrite (list_to_map_proper order (map_to_list m) Hnodup Hvisits).
  rewrite list_to_map_to_list, lookup_fmap.
  destruct (m !! k) as [v |] eqn:Hv; simpl; [| reflexivity].
  unfold resolvedValue. now destruct (HasPrefix v "${").
Qed.

Lemma existsb_visits {A} (f : A -> bool) (l1 l2 : list A) :
  Permutation l1 l2 -> existsb f l1 = existsb f l2.
Proof.
  induction 1 as [| x l1 l2 _ IH | x y l | l1 l2 l3 _ IH1 _ IH2]; simpl.
  - reflexivity.
  - now rewrite IH.
  - now rewrite !orb_assoc, (orb_comm (f y)).
  - now rewrite IH1.
Qed.

(** ** Environment resolution, file by file *)

Lemma loopTrace_stateless {A B} (ev : B -> list Event) (next : A -> B -> A) xs :
  forall acc, loopTrace (fun _ x => ev x) next acc xs = flat_map ev xs.
Proof.
  induction xs as [| x rest IH]; intros acc; [reflexivity |].
  simpl. now rewrite IH.
Qed.

Lemma fold_left_flag {A B} (upd : A -> B -> A) (bad : B -> bool) xs :
  forall a flag,
    fold_left (fun st x => (upd (fst st) x, snd st || bad x)) xs (a, flag) =
    (fold_left upd xs a, flag || existsb bad xs).
Proof.
  induction xs as [| x rest IH]; intros a flag; simpl.
  - now rewrite orb_false_r.
  - now rewrite IH, orb_assoc.
Qed.

Lemma resolveEntries w entries env failed :
  Proc.foldM (resolveEntry w) (env, failed) entries =
  (flat_map (fun kv => entryEvents w (fst kv) (snd kv)) entries,
   inr (fold_left (entryUpdate w) entries env,
        failed || existsb (fun kv => entryFails w (fst kv) (snd kv)) entries)).
Proof.
  rewrite (foldM_steps (resolveEntry w)
             (fun _ kv => entryEvents w (fst kv) (snd kv))
             (fun st kv => (entryUpdate w (fst st) kv,
                            snd st || entryFails w (fst kv) (snd kv)))).
  - now rewrite loopTrace_stateless, fold_left_flag.
  - intros [env' failed'] kv. apply resolveEntry_step.
Qed.

Lemma resolveFile_step w resolved failed file :
  resolveFile w (resolved, failed) file =
  (orderEvents w (rangeOrder w (length resolved) (Env file)),
   inr (resolved ++ [resolvedFile w file], failed || fileFails w file)).
Proof.
  unfold resolveFile. rewrite resolveEntries, bind_value; simpl.
  rewrite (entryUpdate_fold w (Env file) _ (rangeOrder_visits w _ _)).
  unfold fileFails.
  rewrite (existsb_visits _ _ _ (rangeOrder_visits w (length resolved) (Env file))).
  now rewrite app_nil_r.
Qed.

Lemma resolveFiles_run w files :
  forall resolved failed,
    Proc.foldM (resolveFile w) (resolved, failed) files =
    (flat_map (orderEvents w) (rangeOrders w (length resolved) files),
     inr (resolved ++ map (resolvedFile w) files,
          failed || existsb (fileFails w) files)).
Proof.
  induction files as [| file rest IH]; intros resolved failed;
    cbn [Proc.foldM].
  - simpl. now rewrite app_nil_r, orb_false_r.
  - rewrite resolveFile_step, bind_value, IH. cbn [fst snd].
    rewrite length_app. cbn [length]. rewrite Nat.add_1_r.
    cbn [rangeOrders flat_map map existsb].
    now rewrite <- app_assoc, orb_assoc.
Qed.

(** The whole pass: every file and every entry contributes its events, and
    the pass fails exactly when some entry does. *)
Lemma resolveEnv_run w files :
  resolveEnv w files =
  (envTrace w files,
   if existsb (fileFails w) files then inl (Exited 1)
   else inr (map (resolvedFile w) files)).
Proof.
  unfold resolveEnv, envTrace. rewrite resolveFiles_run, bind_value.
  cbn [fst snd length app orb].
  destruct (existsb (fileFails w) files); simpl; now rewrite app_nil_r.
Qed.

Lemma rangeOrders_visit w files :
  forall i, Forall2 visitsEntries files (rangeOrders w i files).
Proof.
  induction files as [| file rest IH]; intros i; simpl; constructor.
  - apply rangeOrder_visits.
  - apply IH.
Qed.

Lemma visited_entry file order key value :
  visitsEntries file order ->
  (In (key, value) order <-> Env file !! key = Some value).
Proof.
  intros Hvisits. rewrite <- list_elem_of_In, Hvisits.
  apply elem_of_map_to_list.
Qed.

(** The events of a pass are those of the entries, whatever the orders. *)
Lemma orders_events w files orders e :
  Forall2 visitsEntries files orders ->
  (In e (flat_map (orderEvents w) orders) <->
   exists file key value,
     In file files /\ Env file !! key = Some value /\
     In e (entryEvents w key value)).
Proof.
  induction 1 as [| file order files orders Hvisits _ IH].
  - simpl. split; [tauto |]. now intros (f & k & v & [] & _).
  - cbn [flat_map]. rewrite in_app_iff, IH. unfold orderEvents at 1.
    rewrite in_flat_map. split.
    + intros [([k v] & Hkv & He) | (f & k & v & Hf & Hentry & He)].
      * exists file, k, v. split; [now left |].
        split; [now apply (visited_entry file order) | exact He].
      * exists f, k, v. split; [now right | auto].
    + intros (f & k & v & [<- | Hf] & Hentry & He).
      * left. exists (k, v). split; [| exact He].
        now apply (visited_entry file order).
      * right. now exists f, k, v.
Qed.

Lemma envTrace_events w files e :
  In e (envTrace w files) <->
  exists file key value,
    In file files /\ Env file !! key = Some value /\
    In e (entryEvents w key value).
Proof. apply orders_events, rangeOrders_visit. Qed.

Lemma fileFails_entry w file key value :
  fileFails w file = false -> Env file !! key = Some value ->
  entryFails w key value = false.
Proof.
  intros Hfile Hentry.
  destruct (entryFails w key value) eqn:Hfails; [| reflexivity].
  enough (fileFails w file = true) by congruence.
  apply existsb_exists. exists (key, value). split; [| assumption].
  apply list_elem_of_In, elem_of_map_to_list. assumption.
Qed.

Lemma entry_fileFails w file key value :
  Env file !! key = Some value -> entryFails w key value = true ->
  fileFails w file = true.
Proof.
  intros Hentry Hfails. apply existsb_exists. exists (key, value).
  split; [| assumption].
  apply list_elem_of_In, elem_of_map_to_list. assumption.
Qed.

Lemma resolvedFile_lookup w file key value :
  Env file !! key = Some value ->
  Env (resolvedFile w file) !! key = Some (resolvedValue w value).
Proof. intros Hentry. simpl. now rewrite lookup_fmap, Hentry. Qed.

(** ** Claims about environment resolution *)

(** C10: a value that starts with [${] and is at least 3 bytes long has the
    text from index 2 up to, not including, its last byte run through bash,
    whatever that last byte is ([${echo hi] runs [echo h]); the entry is
    overwritten with the right-trimmed output whether or not the command
    failed; the value [${] alone becomes the empty string and runs
    nothing. *)
Theorem command_marker_resolution (w : World) (env : gmap string string)
    (failed : bool) (key value : string)
    (Hmarker : HasPrefix value "${" = true) :
  ((3 <= len value)%nat ->
   let cmd := slice value 2 (len value - 1) in
   resolveEntry w (env, failed) (key, value) =
   (EvExec cmd ::
      match snd (BashOutput w cmd) with
      | Some e => [EvPrintError ("Unable to execute '" +:+ cmd +:+ "': " +:+ e)]
      | None => []
      end,
    inr (<[key := TrimRight (fst (BashOutput w cmd)) trimCutset]> env,
         match snd (BashOutput w cmd) with
         | Some _ => true
         | None => failed
         end)))
  /\ (value = "${" ->
      resolveEntry w (env, failed) (key, value) =
      ([], inr (<[key := ""]> env, failed)))
  /\ slice "${echo hi" 2 (len "${echo hi" - 1) = "echo h".
Proof.
  split; [| split; [| reflexivity]].
  - intros Hlen cmd. rewrite resolveEntry_step; simpl.
    unfold entryEvents, entryUpdate, entryFails, resolvedValue; simpl.
    rewrite Hmarker.
    assert ((len value <? 3)%nat = false) as -> by (apply Nat.ltb_ge; lia).
    fold cmd. unfold commandOf. fold cmd.
    destruct (snd (BashOutput w cmd)); [now rewrite orb_true_r |].
    now rewrite orb_false_r.
  - intros ->. reflexivity.
Qed.

(** C8, as amended: the marker [${}] is three bytes long, so the guard of
    line 75 does not catch it: it is run through bash as the empty command,
    the entry gets the right-trimmed output of that run, and a failure is
    recorded exactly when the run reports an error; when bash answers the
    empty command with no output and no error, the entry becomes the empty
    string and no failure is recorded. *)
Theorem empty_marker_runs_bash (w : World) (env : gmap string string)
    (failed : bool) (key : string) :
  resolveEntry w (env, failed) (key, "${}") =
    (EvExec "" ::
       match snd (BashOutput w "") with
       | Some e => [EvPrintError ("Unable to execute '': " +:+ e)]
       | None => []
       end,
     inr (<[key := TrimRight (fst (BashOutput w "")) trimCutset]> env,
          match snd (BashOutput w "") with
          | Some _ => true
          | None => failed
          end))
  /\ (BashOutput w "" = ("", None) ->
      resolveEntry w (env, failed) (key, "${}") =
      ([EvExec ""], inr (<[key := ""]> env, failed))).
Proof.
  unfold resolveEntry; simpl. change (slice "${}" 2 2) with "".
  destruct (BashOutput w "") as [out [e |]]; simpl.
  - split; [reflexivity | discriminate].
  - split; [reflexivity |]. now intros [= ->].
Qed.

(** C4, as amended: when environment resolution succeeds, every entry that
    starts with [${] holds the right-trimmed output of its command (the empty
    string for [${] alone) and the command ran without error; every other
    entry, literal or [<], is unchanged: a [<] entry still holds [<], and
    its variable is set and not empty in the process environment. *)
Theorem resolved_env_entries (w : World) (files resolved : list ChecklistFile)
    (tr : list Event)
    (Hok : resolveEnv w files = (tr, inr resolved)) :
  resolved = map (resolvedFile w) files /\
  forall file key value,
    In file files -> Env file !! key = Some value ->
    Env (resolvedFile w file) !! key = Some (resolvedValue w value) /\
    (HasPrefix value "${" = true -> (3 <= len value)%nat ->
     resolvedValue w value =
       TrimRight (fst (BashOutput w (slice value 2 (len value - 1)))) trimCutset
     /\ snd (BashOutput w (slice value 2 (len value - 1))) = None) /\
    (value = "${" -> resolvedValue w value = "") /\
    (HasPrefix value "${" = false -> resolvedValue w value = value) /\
    (value = "<" ->
     Env (resolvedFile w file) !! key = Some "<" /\ Getenv w key <> "").
Proof.
  rewrite resolveEnv_run in Hok.
  destruct (existsb (fileFails w) files) eqn:Hfails; [discriminate |].
  injection Hok as _ <-. split; [reflexivity |].
  intros file key value Hfile Hentry.
  assert (entryFails w key value = false) as Hgood.
  { apply (fileFails_entry w file); [| assumption].
    destruct (fileFails w file) eqn:Hf; [| reflexivity].
    enough (existsb (fileFails w) files = true) by congruence.
    apply existsb_exists. now exists file. }
  split; [now apply resolvedFile_lookup |].
  split; [| split; [| split]].
  - intros Hmarker Hlen. unfold entryFails, resolvedValue in *.
    rewrite Hmarker in *.
    assert ((len value <? 3)%nat = false) as Hlong by (apply Nat.ltb_ge; lia).
    rewrite Hlong in *. unfold commandOf in *. split; [reflexivity |].
    now destruct (snd (BashOutput w _)).
  - intros ->. reflexivity.
  - intros Hmarker. unfold resolvedValue. now rewrite Hmarker.
  - intros ->. split; [now apply (resolvedFile_lookup w file key "<") |].
    unfold entryFails in Hgood; simpl in Hgood.
    now apply String.eqb_neq.
Qed.

(** ** The phases before environment resolution *)

Lemma bind_nil {A B} (a : A) (k : A -> Proc.t B) :
  Proc.bind ([], inr a) k = k a.
Proof. apply (bind_ret a k). Qed.

Lemma bind_trace_prefix {A B} (m : Proc.t A) (k : A -> Proc.t B) :
  exists rest, fst (Proc.bind m k) = fst m ++ rest.
Proof.
  destruct m as [tr [o | a]]; simpl.
  - exists []. now rewrite app_nil_r.
  - destruct (k a) as [tr' r]. now exists tr'.
Qed.

Lemma main_trace w fl : fst (main w fl) = fst (program w fl).
Proof. unfold main. now destruct (program w fl) as [tr [o | u]]. Qed.

Lemma loadArg_ok w useRunbook files fname tr useRunbook' files' :
  loadArg w (useRunbook, files) fname = (tr, inr (useRunbook', files')) ->
  tr = [] /\ exists file, files' = files ++ [file].
Proof.
  unfold loadArg. destruct (HasPrefix fname "runbook:").
  - intros [= <- <- <-]. eauto.
  - destruct (LoadChecklist w fname) as [err | checklist]; [discriminate |].
    intros [= <- <- <-]. eauto.
Qed.

Lemma loadArgs_ok w args :
  forall useRunbook files tr useRunbook' files',
    Proc.foldM (loadArg w) (useRunbook, files) args
      = (tr, inr (useRunbook', files')) ->
    tr = [] /\ length files' = length files + length args.
Proof.
  induction args as [| fname rest IH]; intros u files tr u' files' Hrun.
  - injection Hrun as <- <- <-. split; [reflexivity | simpl; lia].
  - simpl in Hrun. apply bind_inr in Hrun as (tr1 & [u1 files1] & tr2 & H1 & H2 & ->).
    apply loadArg_ok in H1 as [-> [file ->]].
    apply IH in H2 as [-> Hlen]. split; [reflexivity |].
    rewrite Hlen, length_app. simpl. lia.
Qed.

Lemma loadChecklists_ok w fl tr useRunbook files :
  loadChecklists w fl = (tr, inr (useRunbook, files)) ->
  tr = [] /\ files <> [].
Proof.
  unfold loadChecklists. destruct (Args fl) as [| fname rest] eqn:Hargs.
  - discriminate.
  - intros Hrun. apply loadArgs_ok in Hrun as [-> Hlen]. split; [reflexivity |].
    intros ->. simpl in Hlen. lia.
Qed.

Lemma createRunbook_ok w useRunbook tr runbook :
  createRunbook w useRunbook = (tr, inr runbook) -> tr = [].
Proof.
  unfold createRunbook. destruct useRunbook; [| now intros [= <- <-]].
  destruct (CreateRunbookClientWithEnvConfig w); [discriminate |].
  now intros [= <- <-].
Qed.

Lemma expandFile_ok w runbook expanded file tr expanded' :
  expandFile w runbook expanded file = (tr, inr expanded') ->
  exists file', expanded' = expanded ++ [file'].
Proof.
  unfold expandFile. destruct (0 <? length (RunbookSteps file))%nat.
  - intros Hrun. apply bind_inr in Hrun as (tr1 & items & tr2 & _ & H2 & _).
    injection H2 as _ <-. eauto.
  - intros [= <- <-]. eauto.
Qed.

Lemma expandFiles_ok w runbook files :
  forall expanded tr expanded',
    Proc.foldM (expandFile w runbook) expanded files = (tr, inr expanded') ->
    length expanded' = length expanded + length files.
Proof.
  induction files as [| file rest IH]; intros expanded tr expanded' Hrun.
  - injection Hrun as <- <-. simpl; lia.
  - simpl in Hrun. apply bind_inr in Hrun as (tr1 & e1 & tr2 & H1 & H2 & ->).
    apply expandFile_ok in H1 as [file' ->].
    apply IH in H2. rewrite H2, length_app. simpl. lia.
Qed.

(** A start-up that reaches the items has at least one checklist file, so
    line 167 can index [checklistFiles[0]]. *)
Lemma startup_files w fl tr runbook runner files :
  startup w fl = (tr, inr (runbook, runner, files)) -> files <> [].
Proof.
  unfold startup. intros Hrun.
  apply bind_inr in Hrun as (tr1 & [u files1] & tr2 & Hload & Hrun & ->).
  apply bind_inr in Hrun as (tr3 & rb & tr4 & _ & Hrun & ->).
  apply bind_inr in Hrun as (tr5 & files2 & tr6 & Henv & Hrun & ->).
  apply bind_inr in Hrun as (tr7 & files3 & tr8 & Hexp & Hrun & ->).
  apply bind_inr in Hrun as (tr9 & [] & tr10 & _ & Hrun & ->).
  apply bind_inr in Hrun as (tr11 & rn & tr12 & _ & Hrun & ->).
  injection Hrun as _ _ _ <-.
  apply loadChecklists_ok in Hload as [_ Hne].
  rewrite resolveEnv_run in Henv.
  destruct (existsb (fileFails w) files1); [discriminate |].
  injection Henv as _ <-.
  apply expandFiles_ok in Hexp. simpl in Hexp.
  rewrite length_map in Hexp.
  destruct files3; [| discriminate].
  destruct files1; [congruence | discriminate].
Qed.

Lemma program_after_load w fl tr0 useRunbook files tr1 runbook :
  loadChecklists w fl = (tr0, inr (useRunbook, files)) ->
  createRunbook w useRunbook = (tr1, inr runbook) ->
  program w fl =
  Proc.bind
    (Proc.bind (resolveEnv w files)
       (fun checklistFiles =>
          let* checklistFiles := expandRunbook w runbook checklistFiles in
          listAndExit fl checklistFiles ;;
          let* runner := prepareRunner w fl checklistFiles in
          Proc.ret (runbook, runner, checklistFiles)))
    (fun '(runbook, runner, checklistFiles) =>
       execute w fl runbook runner checklistFiles).
Proof.
  intros Hload Hclient.
  destruct (loadChecklists_ok _ _ _ _ _ Hload) as [-> _].
  rewrite (createRunbook_ok _ _ _ _ Hclient) in Hclient.
  unfold program, startup. rewrite Hload, bind_nil, Hclient, bind_nil.
  reflexivity.
Qed.

Lemma env_trace_in_main w fl tr0 useRunbook files tr1 runbook :
  loadChecklists w fl = (tr0, inr (useRunbook, files)) ->
  createRunbook w useRunbook = (tr1, inr runbook) ->
  exists rest, fst (main w fl) = envTrace w files ++ rest.
Proof.
  intros Hload Hclient.
  rewrite main_trace, (program_after_load _ _ _ _ _ _ _ Hload Hclient).
  match goal with
  | |- context [Proc.bind (Proc.bind ?m ?k1) ?k2] =>
      destruct (bind_trace_prefix (Proc.bind m k1) k2) as [r2 ->];
      destruct (bind_trace_prefix m k1) as [r1 ->]
  end.
  rewrite resolveEnv_run; simpl. exists (r1 ++ r2). now rewrite app_assoc.
Qed.

Lemma entryEvents_kind w key value :
  Forall (fun e => exists s, e = EvExec s \/ e = EvPrintError s)
         (entryEvents w key value).
Proof.
  unfold entryEvents.
  destruct (HasPrefix value "${").
  - destruct (len value <? 3)%nat; [constructor |].
    constructor; [eauto |].
    destruct (snd (BashOutput w _)); repeat constructor; eauto.
  - destruct (String.eqb value "<"); [| constructor].
    destruct (String.eqb (Getenv w key) ""); repeat constructor; eauto.
Qed.

(** C5: once the checklists are loaded (and the runbook client, if any, is
    created), the pass over the environment entries runs every command and
    reports every failing entry of every file, whatever failed before; and
    if some entry fails, the process exits with status 1 having done nothing
    but run those commands and print those errors, checklist by checklist
    and, within a checklist, in the order the map happened to be ranged
    over: no item is listed, rendered or executed. *)
Theorem env_failures_accumulate (w : World) (fl : Flags) (useRunbook : bool)
    (files : list ChecklistFile) (tr0 tr1 : list Event)
    (runbook : option RunbookClient)
    (Hload : loadChecklists w fl = (tr0, inr (useRunbook, files)))
    (Hclient : createRunbook w useRunbook = (tr1, inr runbook)) :
  (forall file key value,
     In file files -> Env file !! key = Some value ->
     (HasPrefix value "${" = true -> (3 <= len value)%nat ->
      In (EvExec (slice value 2 (len value - 1))) (fst (main w fl))) /\
     (forall e,
        HasPrefix value "${" = true -> (3 <= len value)%nat ->
        snd (BashOutput w (slice value 2 (len value - 1))) = Some e ->
        In (EvPrintError
              ("Unable to execute '" +:+ slice value 2 (len value - 1)
               +:+ "': " +:+ e))
           (fst (main w fl))) /\
     (value = "<" -> Getenv w key = "" ->
      In (EvPrintError ("Missing required " +:+ key +:+ " environment variable"))
         (fst (main w fl))))
  /\
  ((exists file key value,
      In file files /\ Env file !! key = Some value /\
      entryFails w key value = true) ->
   (exists orders,
      Forall2 (fun file order => Permutation order (map_to_list (Env file)))
        files orders /\
      main w fl = (flat_map (orderEvents w) orders, Exited 1)) /\
   exitStatus (snd (main w fl)) = 1%Z /\
   Forall (fun e => exists s, e = EvExec s \/ e = EvPrintError s)
          (fst (main w fl))).
Proof.
  split.
  - intros file key value Hfile Hentry.
    destruct (env_trace_in_main _ _ _ _ _ _ _ Hload Hclient) as [rest ->].
    assert (forall e, In e (entryEvents w key value) ->
                      In e (envTrace w files ++ rest)) as Hin.
    { intros e He. apply in_or_app. left. apply envTrace_events.
      now exists file, key, value. }
    assert ((len value <? 3)%nat = false <-> (3 <= len value)%nat) as Hlong
      by (rewrite Nat.ltb_ge; lia).
    split; [| split].
    + intros Hmarker Hlen. apply Hin. unfold entryEvents.
      rewrite Hmarker. apply Hlong in Hlen as ->. now left.
    + intros e Hmarker Hlen Herr. apply Hin. unfold entryEvents, commandOf.
      rewrite Hmarker. apply Hlong in Hlen as ->. rewrite Herr.
      right. now left.
    + intros -> Hmissing. apply Hin. unfold entryEvents; simpl.
      rewrite Hmissing. now left.
  - intros (file & key & value & Hfile & Hentry & Hfails).
    assert (existsb (fileFails w) files = true) as Hbad.
    { apply existsb_exists. exists file. split; [assumption |].
      now apply (entry_fileFails w file key value). }
    assert (main w fl = (envTrace w files, Exited 1)) as Hmain.
    { unfold main.
      rewrite (program_after_load _ _ _ _ _ _ _ Hload Hclient).
      rewrite resolveEnv_run, Hbad. reflexivity. }
    rewrite Hmain. split; [| split; [reflexivity |]].
    + exists (rangeOrders w 0 files). split; [| reflexivity].
      apply rangeOrders_visit.
    + cbn [fst]. apply List.Forall_forall. intros e He.
      apply envTrace_events in He as (f & k & v & _ & _ & He).
      pose proof (entryEvents_kind w k v) as Hkind.
      rewrite List.Forall_forall in Hkind. now apply Hkind.
Qed.

(** ** The item loop *)

Lemma checkItem_step w fl runbook runner failure item :
  checkItem w fl runbook runner failure item =
  (itemTrace w fl runbook runner failure item,
   inr (nextFailure w fl runner failure item)).
Proof.
  unfold itemTrace, nextFailure, itemFails, checkItem.
  destruct failure; [reflexivity |]. simpl.
  destruct (fAuto fl).
  - destruct (CanCheckItem w item); simpl; [| reflexivity].
    destruct (RunItemCheck w item runner) as [[[value serr] ok] [e |]];
      [reflexivity |].
    now destruct ok.
  - destruct (UxCheckItem w item runner) as [ok result]; simpl.
    destruct ok; simpl; [reflexivity |].
    now destruct (String.eqb (RunbookID item) "").
Qed.

Lemma nextFailure_fold w fl runner items :
  forall failure,
    fold_left (nextFailure w fl runner) items failure =
    failure || existsb (itemFails w fl runner) items.
Proof.
  induction items as [| item rest IH]; intros failure; simpl.
  - now rewrite orb_false_r.
  - rewrite IH. unfold nextFailure. now rewrite orb_assoc.
Qed.

Lemma checkItems_run w fl runbook runner items failure :
  Proc.foldM (checkItem w fl runbook runner) failure items =
  (activeTrace w fl runbook runner failure items,
   inr (failure || existsb (itemFails w fl runner) items)).
Proof.
  rewrite (foldM_steps _ (itemTrace w fl runbook runner)
             (nextFailure w fl runner)).
  - now rewrite nextFailure_fold.
  - intros acc x. apply checkItem_step.
Qed.

(** After a failure every item is skipped as aborted. *)
Lemma activeTrace_aborted w fl runbook runner items :
  activeTrace w fl runbook runner true items =
  map (fun item => EvSkipItem item "ABORTED") items.
Proof.
  induction items as [| item rest IH]; [reflexivity |].
  unfold activeTrace in *. simpl. now rewrite IH.
Qed.

(** ** The flattened item slice *)

Lemma appendItem_elems w s item :
  elems (appendItem w s item) = elems s ++ [item].
Proof. unfold appendItem. now destruct (_ <=? _)%nat. Qed.

Lemma appendItem_capacity w s item :
  (length (elems s) <= capacity s)%nat ->
  (length (elems (appendItem w s item)) <= capacity (appendItem w s item))%nat.
Proof.
  intros Hcap. unfold appendItem.
  destruct (S (length (elems s)) <=? capacity s)%nat eqn:Hfits; simpl;
    rewrite length_app; simpl.
  - apply Nat.leb_le in Hfits. lia.
  - lia.
Qed.

Lemma appendItems w items :
  forall s,
    (length (elems s) <= capacity s)%nat ->
    elems (fold_left (appendItem w) items s) = elems s ++ items /\
    (length (elems (fold_left (appendItem w) items s))
     <= capacity (fold_left (appendItem w) items s))%nat.
Proof.
  induction items as [| item rest IH]; intros s Hcap; simpl.
  - now rewrite app_nil_r.
  - destruct (IH (appendItem w s item) (appendItem_capacity w s item Hcap))
      as [Helems Hcap'].
    split; [| assumption].
    now rewrite Helems, appendItem_elems, <- app_assoc.
Qed.

Lemma collectFiles w files :
  forall s,
    (length (elems s) <= capacity s)%nat ->
    let all :=
      fold_left (fun all file => fold_left (appendItem w) (Checklist file) all)
                files s in
    elems all = elems s ++ mergedItems files /\
    (length (elems all) <= capacity all)%nat.
Proof.
  induction files as [| file rest IH]; intros s Hcap; simpl.
  - now rewrite app_nil_r.
  - destruct (appendItems w (Checklist file) s Hcap) as [Helems Hcap'].
    destruct (IH _ Hcap') as [Hall Hcapall]. split; [| assumption].
    unfold mergedItems in *. now rewrite Hall, Helems, <- app_assoc.
Qed.

Lemma collectItems_elems w files :
  elems (collectItems w files) = mergedItems files.
Proof. apply (collectFiles w files nilSlice). simpl; lia. Qed.

Lemma collectItems_capacity w files :
  (length (mergedItems files) <= capacity (collectItems w files))%nat.
Proof.
  rewrite <- (collectItems_elems w). apply (collectFiles w files nilSlice).
  simpl; lia.
Qed.

(** ** From [startup] to the end of [main] *)

Lemma main_after_startup w fl tr0 runbook runner files :
  startup w fl = (tr0, inr (runbook, runner, files)) ->
  main w fl =
  (tr0 ++ fst (execute w fl runbook runner files),
   outcomeOf (snd (execute w fl runbook runner files))).
Proof.
  intros Hstart. unfold main, program. rewrite Hstart, bind_value.
  now destruct (execute w fl runbook runner files) as [tr [o | u]].
Qed.

Lemma banner_run files :
  files <> [] -> banner files = (bannerLines (firstTitle files), inr tt).
Proof. destruct files as [| first rest]; [congruence | reflexivity]. Qed.

Lemma sliceTo_in_range w files (skip : Z) :
  (0 <= skip <= Z.of_nat (length (mergedItems files)))%Z ->
  sliceTo (collectItems w files) skip =
  Some (firstn (Z.to_nat skip) (mergedItems files)).
Proof.
  intros Hskip. unfold sliceTo, backing.
  pose proof (collectItems_capacity w files) as Hcap.
  rewrite collectItems_elems.
  assert (((skip <? 0) || (Z.of_nat (capacity (collectItems w files)) <? skip))%Z
          = false) as ->.
  { apply orb_false_iff. split; apply Z.ltb_ge; lia. }
  f_equal. rewrite firstn_app.
  replace (Z.to_nat skip - length (mergedItems files))%nat with 0%nat by lia.
  simpl. now rewrite app_nil_r.
Qed.

Lemma sliceOff_in_range w files (skip : Z) :
  (0 <= skip <= Z.of_nat (length (mergedItems files)))%Z ->
  sliceOff (collectItems w files) skip =
  Some (skipn (Z.to_nat skip) (mergedItems files)).
Proof.
  intros Hskip. unfold sliceOff. rewrite collectItems_elems.
  assert (((skip <? 0) || (Z.of_nat (length (mergedItems files)) <? skip))%Z
          = false) as ->; [| reflexivity].
  apply orb_false_iff. split; apply Z.ltb_ge; lia.
Qed.

(** The run of the items when the skip count is within the item count. *)
Lemma execute_in_range w fl runbook runner files :
  files <> [] ->
  (0 <= fSkip fl <= Z.of_nat (length (mergedItems files)))%Z ->
  let skip := Z.to_nat (fSkip fl) in
  let failure :=
    existsb (itemFails w fl runner) (skipn skip (mergedItems files)) in
  execute w fl runbook runner files =
  (bannerLines (firstTitle files)
     ++ map EvBlankItem (firstn skip (mergedItems files))
     ++ activeTrace w fl runbook runner false (skipn skip (mergedItems files))
     ++ verdictLines failure,
   inl (Exited (if failure then 1 else 0))).
Proof.
  intros Hfiles Hskip skip failure. unfold execute, blankItems, activeItems.
  rewrite (banner_run files Hfiles), bind_value.
  rewrite (sliceTo_in_range w files _ Hskip).
  rewrite (sliceOff_in_range w files _ Hskip).
  unfold Proc.emits. rewrite bind_value, checkItems_run, bind_value.
  simpl. fold skip. fold failure. unfold verdictLines.
  now destruct failure.
Qed.

(** ** What a successful start-up can have done *)

Lemma loopTrace_chunks {A B} (ev : A -> B -> list Event) next (xs : list B) :
  forall acc, loopTrace ev next acc xs = concat (loopChunks ev next acc xs).
Proof.
  induction xs as [| x rest IH]; intros acc; [reflexivity |].
  simpl. now rewrite IH.
Qed.

Lemma bind_Forall {A B} (P : Event -> Prop) (m : Proc.t A) (k : A -> Proc.t B) :
  Forall P (fst m) -> (forall a, Forall P (fst (k a))) ->
  Forall P (fst (Proc.bind m k)).
Proof.
  destruct m as [tr [o | a]]; simpl; [auto |].
  intros Hm Hk. specialize (Hk a). destruct (k a) as [tr' r]. simpl in *.
  apply Forall_app. split; assumption.
Qed.

Lemma foldM_Forall {A B} (P : Event -> Prop) (body : A -> B -> Proc.t A) :
  (forall acc x, Forall P (fst (body acc x))) ->
  forall xs acc, Forall P (fst (Proc.foldM body acc xs)).
Proof.
  intros Hbody xs. induction xs as [| x rest IH]; intros acc; simpl.
  - constructor.
  - apply bind_Forall; auto.
Qed.

Lemma foldM_ok_Forall {A B} (P : Event -> Prop) (body : A -> B -> Proc.t A) :
  (forall acc x tr acc', body acc x = (tr, inr acc') -> Forall P tr) ->
  forall xs acc tr acc',
    Proc.foldM body acc xs = (tr, inr acc') -> Forall P tr.
Proof.
  intros Hbody xs. induction xs as [| x rest IH]; intros acc tr acc' Hrun.
  - injection Hrun as <- _. constructor.
  - simpl in Hrun. apply bind_inr in Hrun as (tr1 & a1 & tr2 & H1 & H2 & ->).
    apply Forall_app. split; [now apply (Hbody acc x tr1 a1) |].
    now apply (IH a1 tr2 acc').
Qed.

Lemma expandRunbook_setup w runbook files tr expanded :
  expandRunbook w runbook files = (tr, inr expanded) ->
  Forall (fun e => isSetupEvent e = true) tr.
Proof.
  apply foldM_ok_Forall. clear. intros done file tr done'. unfold expandFile.
  destruct (0 <? length (RunbookSteps file))%nat;
    [| intros [= <- _]; constructor].
  intros Hrun. apply bind_inr in Hrun as (tr1 & items & tr2 & H1 & H2 & ->).
  injection H2 as <- _. rewrite app_nil_r.
  revert H1. apply foldM_ok_Forall. clear. intros items step tr items'.
  unfold fetchStep. intros Hrun.
  apply bind_inr in Hrun as (tr1 & [] & tr2 & H1 & H2 & ->).
  injection H1 as <-.
  destruct (ChecklistFromRunbook w runbook step); [discriminate |].
  injection H2 as <- _. repeat constructor.
Qed.

Lemma entryEvents_quiet w key value :
  entryFails w key value = false ->
  Forall (fun e => isSetupEvent e = true) (entryEvents w key value).
Proof.
  unfold entryFails, entryEvents.
  destruct (HasPrefix value "${").
  - destruct (len value <? 3)%nat; [constructor |].
    destruct (snd (BashOutput w _)); [discriminate |]. repeat constructor.
  - destruct (String.eqb value "<"); [| constructor].
    intros ->. constructor.
Qed.

Lemma listAndExit_ok fl files tr :
  listAndExit fl files = (tr, inr tt) -> tr = [].
Proof.
  unfold listAndExit. destruct (fList fl); [| now intros [= <-]].
  intros Hrun. apply bind_inr in Hrun as (tr1 & i & tr2 & _ & Hrun & _).
  discriminate.
Qed.

Lemma addFiles_ok w files :
  forall config tr config',
    Proc.foldM (addFile w) config files = (tr, inr config') -> tr = [].
Proof.
  induction files as [| file rest IH]; intros config tr config' Hrun.
  - now injection Hrun as <- _.
  - simpl in Hrun. apply bind_inr in Hrun as (tr1 & c1 & tr2 & H1 & H2 & ->).
    apply IH in H2 as ->. unfold addFile in H1.
    destruct (AddChecklistFile w config file); [discriminate |].
    now injection H1 as <- _.
Qed.

Lemma prepareRunner_ok w fl files tr runner :
  prepareRunner w fl files = (tr, inr runner) -> tr = [].
Proof.
  unfold prepareRunner. destruct (CreateConfig w) as [err | config]; [discriminate |].
  intros Hrun. apply bind_inr in Hrun as (tr1 & c1 & tr2 & H1 & H2 & ->).
  apply addFiles_ok in H1 as ->.
  destruct (CreateRunner w c1) as [err | rn]; [discriminate |].
  destruct (0 <? length (GetMissingTools w rn))%nat; [discriminate |].
  now injection H2 as <- _.
Qed.

Lemma startup_setup w fl tr runbook runner files :
  startup w fl = (tr, inr (runbook, runner, files)) ->
  Forall (fun e => isSetupEvent e = true) tr.
Proof.
  unfold startup. intros Hrun.
  apply bind_inr in Hrun as (tr1 & [u files1] & tr2 & Hload & Hrun & ->).
  apply bind_inr in Hrun as (tr3 & rb & tr4 & Hclient & Hrun & ->).
  apply bind_inr in Hrun as (tr5 & files2 & tr6 & Henv & Hrun & ->).
  apply bind_inr in Hrun as (tr7 & files3 & tr8 & Hexp & Hrun & ->).
  apply bind_inr in Hrun as (tr9 & [] & tr10 & Hlist & Hrun & ->).
  apply bind_inr in Hrun as (tr11 & rn & tr12 & Hprep & Hrun & ->).
  injection Hrun as <- _ _ _.
  apply loadChecklists_ok in Hload as [-> _].
  apply createRunbook_ok in Hclient as ->.
  apply listAndExit_ok in Hlist as ->.
  apply prepareRunner_ok in Hprep as ->.
  apply expandRunbook_setup in Hexp.
  rewrite resolveEnv_run in Henv.
  destruct (existsb (fileFails w) files1) eqn:Hfails; [discriminate |].
  injection Henv as <- _. cbn [app].
  rewrite app_nil_r. apply Forall_app. split; [| assumption].
  apply List.Forall_forall. intros e He.
  apply envTrace_events in He as (f & k & v & Hf & Hkv & He).
  assert (entryFails w k v = false) as Hgood.
  { apply (fileFails_entry w f); [| exact Hkv].
    destruct (fileFails w f) eqn:Hbad; [| reflexivity].
    enough (existsb (fileFails w) files1 = true) by congruence.
    apply existsb_exists. now exists f. }
  pose proof (entryEvents_quiet w k v Hgood) as Hkind.
  rewrite List.Forall_forall in Hkind. now apply Hkind.
Qed.

(** ** Claims about the item loop *)

Lemma itemTrace_about w fl runbook runner failure item :
  itemTrace w fl runbook runner failure item <> [] /\
  Forall (aboutItem item) (itemTrace w fl runbook runner failure item).
Proof.
  unfold itemTrace, checkItem.
  destruct failure; [split; [discriminate | repeat constructor] |].
  destruct (fAuto fl).
  - destruct (CanCheckItem w item); simpl;
      [| split; [discriminate | repeat constructor]].
    destruct (RunItemCheck w item runner) as [[[value serr] ok] [e |]];
      [split; [discriminate | repeat constructor] |].
    destruct ok; split; simpl; try discriminate; repeat constructor.
  - destruct (UxCheckItem w item runner) as [ok result]; simpl.
    destruct ok; simpl; [split; [discriminate | repeat constructor] |].
    destruct (String.eqb (RunbookID item) ""); simpl;
      split; try discriminate; repeat constructor.
Qed.

Lemma loopChunks_about w fl runbook runner items :
  forall failure,
    Forall2 (fun item chunk => chunk <> [] /\ Forall (aboutItem item) chunk)
      items
      (loopChunks (itemTrace w fl runbook runner) (nextFailure w fl runner)
         failure items).
Proof.
  induction items as [| item rest IH]; intros failure; simpl; constructor.
  - apply itemTrace_about.
  - apply IH.
Qed.

Lemma setup_no_attempt tr :
  Forall (fun e => isSetupEvent e = true) tr ->
  Forall (fun e => isAttempt e = false) tr.
Proof.
  apply List.Forall_impl. intros e He. destruct e; simpl in *; congruence.
Qed.

Lemma banner_no_attempt title :
  Forall (fun e => isAttempt e = false) (bannerLines title).
Proof. repeat constructor. Qed.

Lemma blanks_no_attempt items :
  Forall (fun e => isAttempt e = false) (map EvBlankItem items).
Proof. induction items; simpl; constructor; auto. Qed.

Lemma verdict_no_attempt failure :
  Forall (fun e => isAttempt e = false) (verdictLines failure).
Proof. destruct failure; repeat constructor. Qed.

Lemma itemTrace_events w fl runbook runner aborted item :
  itemTrace w fl runbook runner aborted item =
  itemEvents w fl runbook runner aborted item.
Proof.
  unfold itemTrace, itemEvents, checkItem.
  destruct aborted; [reflexivity |].
  destruct (fAuto fl).
  - destruct (CanCheckItem w item); simpl; [| reflexivity].
    destruct (RunItemCheck w item runner) as [[[value serr] ok] [e |]];
      now destruct ok.
  - destruct (UxCheckItem w item runner) as [ok result]; simpl.
    destruct ok; simpl; [reflexivity |].
    now destruct (String.eqb (RunbookID item) "").
Qed.

Lemma activeTrace_events w fl runbook runner items :
  forall aborted,
    activeTrace w fl runbook runner aborted items =
    activeEvents w fl runbook runner aborted items.
Proof.
  induction items as [| item rest IH]; intros aborted; [reflexivity |].
  unfold activeTrace in *. cbn [loopTrace activeEvents].
  now rewrite itemTrace_events, IH.
Qed.

Lemma activeEvents_app w fl runbook runner (xs ys : list ChecklistItem) :
  forall aborted,
    activeEvents w fl runbook runner aborted (xs ++ ys) =
    activeEvents w fl runbook runner aborted xs
    ++ activeEvents w fl runbook runner
         (aborted || existsb (itemFails w fl runner) xs) ys.
Proof.
  induction xs as [| x rest IH]; intros aborted; cbn [app activeEvents existsb].
  - now rewrite orb_false_r.
  - now rewrite IH, <- app_assoc, orb_assoc.
Qed.

(** C7: with a skip count [s] between 0 and the number [n] of merged items,
    the first [s] items, and only they, are rendered blank, with no call into
    the Runner before or among them; the items from index [s] on are then
    each processed by the loop body [checkItem], one after the other and in
    order, starting with no failure recorded: each item is skipped as
    aborted when an earlier active item failed, and otherwise checked
    through the Runner, or skipped for want of a check, or checked
    interactively, as [itemEvents] spells out; the process exits with 1 if
    one of them failed and 0 if none did; when [s = n] the run makes no
    attempt at all and exits with status 0. *)
Theorem skip_region_blank (w : World) (fl : Flags) (tr0 : list Event)
    (runbook : option RunbookClient) (runner : Runner)
    (files : list ChecklistFile)
    (Hstart : startup w fl = (tr0, inr (runbook, runner, files)))
    (Hskip : (0 <= fSkip fl <= Z.of_nat (length (mergedItems files)))%Z) :
  let items := mergedItems files in
  let s := Z.to_nat (fSkip fl) in
  let active := skipn s items in
  let failure := existsb (itemFails w fl runner) active in
  main w fl =
    (tr0 ++ bannerLines (firstTitle files)
       ++ map EvBlankItem (firstn s items)
       ++ fst (Proc.foldM (checkItem w fl runbook runner) false active)
       ++ verdictLines failure,
     Exited (if failure then 1 else 0)) /\
  Proc.foldM (checkItem w fl runbook runner) false active =
    (activeEvents w fl runbook runner false active, inr failure) /\
  (forall before item after,
     active = before ++ item :: after ->
     let aborted := existsb (itemFails w fl runner) before in
     Proc.foldM (checkItem w fl runbook runner) false before =
       (activeEvents w fl runbook runner false before, inr aborted) /\
     checkItem w fl runbook runner aborted item =
       (itemEvents w fl runbook runner aborted item,
        inr (aborted || itemFails w fl runner item)) /\
     activeEvents w fl runbook runner false active =
       activeEvents w fl runbook runner false before
         ++ itemEvents w fl runbook runner aborted item
         ++ activeEvents w fl runbook runner
              (aborted || itemFails w fl runner item) after) /\
  Forall (fun e => isAttempt e = false)
    (tr0 ++ bannerLines (firstTitle files) ++ map EvBlankItem (firstn s items))
  /\
  (s = length items ->
   main w fl =
   (tr0 ++ bannerLines (firstTitle files) ++ map EvBlankItem items
      ++ verdictLines false,
    Exited 0) /\
   Forall (fun e => isAttempt e = false) (fst (main w fl)) /\
   exitStatus (snd (main w fl)) = 0%Z).
Proof.
  intros items s active failure.
  pose proof (startup_files _ _ _ _ _ _ Hstart) as Hfiles.
  pose proof (setup_no_attempt _ (startup_setup _ _ _ _ _ _ Hstart)) as Hquiet.
  pose proof (main_after_startup _ _ _ _ _ _ Hstart) as Hmain.
  rewrite (execute_in_range w fl runbook runner files Hfiles Hskip) in Hmain.
  cbn [fst snd outcomeOf] in Hmain. fold items s active failure in Hmain.
  assert (forall aborted l,
             Proc.foldM (checkItem w fl runbook runner) aborted l =
             (activeEvents w fl runbook runner aborted l,
              inr (aborted || existsb (itemFails w fl runner) l))) as Hloop.
  { intros aborted l. now rewrite checkItems_run, activeTrace_events. }
  rewrite activeTrace_events in Hmain.
  split; [now rewrite Hloop |]. split; [apply Hloop |]. split; [| split].
  - intros before item after -> aborted.
    split; [apply Hloop |]. split.
    + rewrite checkItem_step, itemTrace_events. reflexivity.
    + rewrite activeEvents_app. cbn [activeEvents orb]. reflexivity.
  - repeat (apply Forall_app; split);
      auto using banner_no_attempt, blanks_no_attempt.
  - intros Hall. rewrite Hmain. unfold failure, active.
    rewrite Hall, skipn_all, firstn_all.
    cbn [activeEvents existsb app fst snd].
    split; [reflexivity |]. split; [| reflexivity].
    repeat (apply Forall_app; split);
      auto using banner_no_attempt, blanks_no_attempt, verdict_no_attempt.
Qed.

(** C6: when an item of the active region fails (none before it having
    failed), every later item is skipped as ["ABORTED"] and nothing else is
    done for it, so the Runner is not called again, and the process exits
    with status 1. *)
Theorem abort_after_failure (w : World) (fl : Flags) (tr0 : list Event)
    (runbook : option RunbookClient) (runner : Runner)
    (files : list ChecklistFile) (before after : list ChecklistItem)
    (item : ChecklistItem)
    (Hstart : startup w fl = (tr0, inr (runbook, runner, files)))
    (Hskip : (0 <= fSkip fl <= Z.of_nat (length (mergedItems files)))%Z)
    (Hsplit : skipn (Z.to_nat (fSkip fl)) (mergedItems files)
              = before ++ item :: after)
    (Hbefore : existsb (itemFails w fl runner) before = false)
    (Hfails : itemFails w fl runner item = true) :
  main w fl =
  (tr0 ++ bannerLines (firstTitle files)
     ++ map EvBlankItem (firstn (Z.to_nat (fSkip fl)) (mergedItems files))
     ++ activeTrace w fl runbook runner false before
     ++ itemTrace w fl runbook runner false item
     ++ map (fun later => EvSkipItem later "ABORTED") after
     ++ verdictLines true,
   Exited 1)
  /\ Forall (fun e => isAttempt e = false)
       (map (fun later => EvSkipItem later "ABORTED") after
          ++ verdictLines true)
  /\ exitStatus (snd (main w fl)) = 1%Z.
Proof.
  pose proof (startup_files _ _ _ _ _ _ Hstart) as Hfiles.
  pose proof (main_after_startup _ _ _ _ _ _ Hstart) as Hmain.
  rewrite (execute_in_range w fl runbook runner files Hfiles Hskip) in Hmain.
  cbn [fst snd outcomeOf] in Hmain. rewrite Hsplit in Hmain.
  assert (existsb (itemFails w fl runner) (before ++ item :: after) = true)
    as Hany.
  { rewrite existsb_app. simpl. rewrite Hfails. now rewrite orb_true_r. }
  rewrite Hany in Hmain. rewrite Hmain.
  split; [| split; [| reflexivity]].
  2: { apply Forall_app. split; [| apply verdict_no_attempt].
       clear. induction after; simpl; constructor; auto. }
  do 3 f_equal. unfold activeTrace.
  rewrite loopTrace_app, nextFailure_fold, Hbefore.
  cbn [loopTrace orb].
  assert (nextFailure w fl runner false item = true) as ->
    by (unfold nextFailure; now rewrite Hfails).
  fold (activeTrace w fl runbook runner true after).
  rewrite activeTrace_aborted. now rewrite <- !app_assoc.
Qed.

Lemma loopTrace_Forall {A B} (P : Event -> Prop) (ev : A -> B -> list Event)
    next :
  (forall acc x, Forall P (ev acc x)) ->
  forall xs acc, Forall P (loopTrace ev next acc xs).
Proof.
  intros Hev xs. induction xs as [| x rest IH]; intros acc; simpl.
  - constructor.
  - apply Forall_app. split; auto.
Qed.

Lemma itemTrace_unattended w fl runbook runner failure item :
  fAuto fl = true ->
  Forall (fun e => isUpdate e = false)
         (itemTrace w fl runbook runner failure item).
Proof.
  intros Hauto. unfold itemTrace, checkItem. rewrite Hauto.
  destruct failure; [repeat constructor |].
  destruct (CanCheckItem w item); simpl; [| repeat constructor].
  destruct (RunItemCheck w item runner) as [[[value serr] ok] [e |]];
    [repeat constructor |].
  destruct ok; repeat constructor.
Qed.

Lemma itemTrace_interactive w fl runbook runner item :
  fAuto fl = false -> RunbookID item <> "" ->
  itemTrace w fl runbook runner false item =
  [EvCheckItem item;
   if fst (UxCheckItem w item runner)
   then EvItemUpdate runbook (RunbookStep item) (RunbookID item) 1 ""
   else EvItemUpdate runbook (RunbookStep item) (RunbookID item) 2
          (failureReason (snd (UxCheckItem w item runner)))].
Proof.
  intros Hauto Hlinked. unfold itemTrace, checkItem. rewrite Hauto.
  destruct (UxCheckItem w item runner) as [ok result]; simpl.
  destruct ok; simpl; [reflexivity |].
  apply String.eqb_neq in Hlinked. now rewrite Hlinked.
Qed.

(** C3, as amended: an item that carries a remote linkage and is executed
    (no earlier active item has failed) has its outcome reported to the
    runbook service right after its interactive check, Completed (1) with an
    empty note when it passed and Failed (2) with the captured output when
    it did not; in unattended mode the run reports nothing to the runbook
    service. *)
Theorem linked_outcome_reported (w : World) (fl : Flags) (tr0 : list Event)
    (runbook : option RunbookClient) (runner : Runner)
    (files : list ChecklistFile) (before after : list ChecklistItem)
    (item : ChecklistItem)
    (Hstart : startup w fl = (tr0, inr (runbook, runner, files)))
    (Hskip : (0 <= fSkip fl <= Z.of_nat (length (mergedItems files)))%Z)
    (Hsplit : skipn (Z.to_nat (fSkip fl)) (mergedItems files)
              = before ++ item :: after)
    (Hbefore : existsb (itemFails w fl runner) before = false)
    (Hlinked : RunbookID item <> "") :
  (fAuto fl = false ->
   exists rest,
     fst (main w fl) =
     (tr0 ++ bannerLines (firstTitle files)
        ++ map EvBlankItem (firstn (Z.to_nat (fSkip fl)) (mergedItems files))
        ++ activeTrace w fl runbook runner false before)
     ++ [EvCheckItem item;
         if fst (UxCheckItem w item runner)
         then EvItemUpdate runbook (RunbookStep item) (RunbookID item) 1 ""
         else EvItemUpdate runbook (RunbookStep item) (RunbookID item) 2
                (failureReason (snd (UxCheckItem w item runner)))]
     ++ rest)
  /\
  (fAuto fl = true ->
   Forall (fun e => isUpdate e = false) (fst (main w fl))).
Proof.
  pose proof (startup_files _ _ _ _ _ _ Hstart) as Hfiles.
  pose proof (main_after_startup _ _ _ _ _ _ Hstart) as Hmain.
  rewrite (execute_in_range w fl runbook runner files Hfiles Hskip) in Hmain.
  cbn [fst snd outcomeOf] in Hmain. rewrite Hmain. cbn [fst]. split.
  - intros Hauto. rewrite Hsplit. unfold activeTrace at 1.
    rewrite loopTrace_app, nextFailure_fold, Hbefore.
    cbn [loopTrace orb].
    rewrite (itemTrace_interactive w fl runbook runner item Hauto Hlinked).
    eexists. rewrite <- !app_assoc. cbn [app]. reflexivity.
  - intros Hauto.
    assert (Forall (fun e => isUpdate e = false) tr0) as Hquiet.
    { generalize (startup_setup _ _ _ _ _ _ Hstart).
      apply List.Forall_impl. intros e He. destruct e; simpl in *; congruence. }
    repeat (apply Forall_app; split); try assumption.
    + repeat constructor.
    + generalize (firstn (Z.to_nat (fSkip fl)) (mergedItems files)).
      intros l. induction l; simpl; constructor; auto.
    + apply loopTrace_Forall. intros acc x.
      now apply itemTrace_unattended.
    + generalize (existsb (itemFails w fl runner)
                    (skipn (Z.to_nat (fSkip fl)) (mergedItems files))).
      intros failure. destruct failure; repeat constructor.
Qed.

(** ** A skip count outside the item list *)

Lemma firstn_repeat_le {A} (x : A) (k n : nat) :
  (k <= n)%nat -> firstn k (repeat x n) = repeat x k.
Proof.
  revert n. induction k as [| k IH]; intros n Hle; [reflexivity |].
  destruct n as [| n]; [lia |]. simpl. f_equal. apply IH. lia.
Qed.

Lemma execute_beyond_capacity w fl runbook runner files :
  files <> [] ->
  (fSkip fl < 0 \/ Z.of_nat (capacity (collectItems w files)) < fSkip fl)%Z ->
  execute w fl runbook runner files =
  (bannerLines (firstTitle files), inl (Panicked "slice bounds out of range")).
Proof.
  intros Hfiles Hskip. unfold execute, blankItems, sliceTo.
  rewrite (banner_run files Hfiles), bind_value.
  assert (((fSkip fl <? 0)
           || (Z.of_nat (capacity (collectItems w files)) <? fSkip fl))%Z = true)
    as ->.
  { apply orb_true_iff. destruct Hskip; [left | right]; now apply Z.ltb_lt. }
  cbn [Proc.bind Proc.halt fst snd]. now rewrite app_nil_r.
Qed.

Lemma execute_within_capacity w fl runbook runner files :
  files <> [] ->
  (Z.of_nat (length (mergedItems files)) < fSkip fl
   <= Z.of_nat (capacity (collectItems w files)))%Z ->
  execute w fl runbook runner files =
  (bannerLines (firstTitle files)
     ++ map EvBlankItem
          (mergedItems files
             ++ repeat zeroItem
                  (Z.to_nat (fSkip fl) - length (mergedItems files))),
   inl (Panicked "slice bounds out of range")).
Proof.
  intros Hfiles Hskip. unfold execute, blankItems, activeItems, sliceTo, sliceOff,
    backing.
  rewrite (banner_run files Hfiles), bind_value, collectItems_elems.
  assert (((fSkip fl <? 0)
           || (Z.of_nat (capacity (collectItems w files)) <? fSkip fl))%Z = false)
    as ->.
  { apply orb_false_iff. split; apply Z.ltb_ge; lia. }
  assert (((fSkip fl <? 0)
           || (Z.of_nat (length (mergedItems files)) <? fSkip fl))%Z = true)
    as ->.
  { apply orb_true_iff. right. apply Z.ltb_lt. lia. }
  rewrite firstn_app, firstn_all2 by lia.
  rewrite firstn_repeat_le by lia.
  cbn [Proc.bind Proc.emits Proc.halt fst snd]. now rewrite app_nil_r.
Qed.

(** C9, as amended: a skip count that is negative, or larger than the
    capacity of the merged item slice, makes the run panic on [allItems[:s]]
    before any item is rendered; a skip count larger than the number [n] of
    items but within the capacity lets the first loop render the [n] items
    and [s - n] zero-valued items as blank, and the run then panics on
    [allItems[s:]].  Either way no error is reported and no item is
    executed. *)
Theorem skip_out_of_range (w : World) (fl : Flags) (tr0 : list Event)
    (runbook : option RunbookClient) (runner : Runner)
    (files : list ChecklistFile)
    (Hstart : startup w fl = (tr0, inr (runbook, runner, files))) :
  let items := mergedItems files in
  let cap := capacity (collectItems w files) in
  Forall (fun e => isSetupEvent e = true) tr0 /\
  (length items <= cap)%nat /\
  ((fSkip fl < 0 \/ Z.of_nat cap < fSkip fl)%Z ->
   main w fl =
   (tr0 ++ bannerLines (firstTitle files),
    Panicked "slice bounds out of range")) /\
  ((Z.of_nat (length items) < fSkip fl <= Z.of_nat cap)%Z ->
   main w fl =
   (tr0 ++ bannerLines (firstTitle files)
      ++ map EvBlankItem
           (items ++ repeat zeroItem (Z.to_nat (fSkip fl) - length items)),
    Panicked "slice bounds out of range")).
Proof.
  intros items cap.
  pose proof (startup_files _ _ _ _ _ _ Hstart) as Hfiles.
  pose proof (main_after_startup _ _ _ _ _ _ Hstart) as Hmain.
  split; [now apply (startup_setup _ _ _ _ _ _ Hstart) |].
  split; [apply collectItems_capacity |].
  split; intros Hskip; rewrite Hmain.
  - now rewrite (execute_beyond_capacity w fl runbook runner files Hfiles Hskip).
  - now rewrite (execute_within_capacity w fl runbook runner files Hfiles Hskip).
Qed.

(** * The claims on concrete runs *)

Module Runs.

Import Sample.

(** C1: an interactive run over one local item, with no runbook anywhere,
    so that no runbook client is created; the item passes, and [main] still
    calls [ChecklistItemUpdate], on the nil client, with an empty step and
    an empty id. *)
Theorem unlinked_pass_still_reported :
  main localWorld (interactive ["local.yaml"]) =
  (bannerLines "Local"
     ++ [EvCheckItem backup; EvItemUpdate None "" "" 1 ""]
     ++ verdictLines false,
   Exited 0)
  /\ RunbookID backup = ""
  /\ startup localWorld (interactive ["local.yaml"]) =
     ([], inr (None, mkRunner (mkConfig "" [localOnly]), [localOnly])).
Proof. repeat split; vm_compute; reflexivity. Qed.

(** C2: the three fatal start-up errors, no argument, a checklist that does
    not load, missing executables, are printed, and then [main] returns:
    the exit status is 0. *)
Theorem fatal_startup_errors_exit_zero :
  (forall w,
     main w (interactive []) =
     ([EvPrintError "Please specify one or more checklists to process"],
      Returned))
  /\ main localWorld (interactive ["missing.yaml"]) =
     ([EvPrintError "open missing.yaml: no such file or directory"], Returned)
  /\ main toollessWorld (interactive ["local.yaml"]) =
     ([EvPrintError "There are missing executables from your path:";
       EvPrintf (" ‣ Did not find '%s'" +:+ nl) [AStr "jq"];
       EvPrintf (" ‣ Did not find '%s'" +:+ nl) [AStr "curl"]],
      Returned)
  /\ exitStatus Returned = 0%Z.
Proof.
  split; [intros w; reflexivity |].
  repeat split; vm_compute; reflexivity.
Qed.

(** C3 fails as stated: in an unattended run the linked item [drained] is
    executed through the Runner and passes, and nothing is reported to the
    runbook service. *)
Lemma unattended_reports_nothing :
  let tr := fst (main trackedWorld (unattended 0 ["deploy.yaml"])) in
  In (EvRunItemCheck drained) tr /\
  RunbookID drained <> "" /\
  ~ exists client status note,
      In (EvItemUpdate client (RunbookStep drained) (RunbookID drained)
            status note) tr.
Proof.
  split; [vm_compute; tauto |]. split; [discriminate |].
  intros (client & status & note & Hin). vm_compute in Hin.
  repeat (destruct Hin as [Hin | Hin]; [discriminate |]). exact Hin.
Qed.

Lemma linked_outcome_reported_witness :
  exists rest,
    fst (main trackedWorld (interactive ["deploy.yaml"])) =
    bannerLines "Deploy"
      ++ [EvCheckItem drained;
          EvItemUpdate (Some TheRunbookClient) "deploy-step-7" "item-7" 1 ""]
      ++ rest.
Proof.
  destruct (linked_outcome_reported trackedWorld (interactive ["deploy.yaml"])
              [] (Some TheRunbookClient) trackedRunner [tracked] [] [] drained)
    as [Hreport _].
  - vm_compute; reflexivity.
  - cbn; lia.
  - reflexivity.
  - reflexivity.
  - discriminate.
  - exact (Hreport eq_refl).
Defined.

(** C4 fails as stated: resolution succeeds, [API_KEY] is set to [secret] in
    the process environment, and the entry still holds the marker [<]. *)
Lemma required_marker_kept :
  resolveEnv requirementsWorld [requirements]
    = ([EvExec "echo h"], inr [resolvedRequirements])
  /\ Getenv requirementsWorld "API_KEY" = "secret"
  /\ ~ (forall tr resolved,
          resolveEnv requirementsWorld [requirements] = (tr, inr resolved) ->
          forall file key, In file resolved -> Env file !! key <> Some "<").
Proof.
  assert (resolveEnv requirementsWorld [requirements]
          = ([EvExec "echo h"], inr [resolvedRequirements])) as Hrun
    by (vm_compute; reflexivity).
  split; [exact Hrun |]. split; [reflexivity |].
  intros Hclaim.
  apply (Hclaim _ _ Hrun resolvedRequirements "API_KEY"); [now left |].
  vm_compute; reflexivity.
Qed.

Lemma resolved_env_entries_witness :
  resolveEnv requirementsWorld [requirements]
    = ([EvExec "echo h"], inr [resolvedRequirements])
  /\ Env (resolvedFile requirementsWorld requirements) !! "GREETING" = Some "h"
  /\ Env (resolvedFile requirementsWorld requirements) !! "API_KEY" = Some "<"
  /\ Getenv requirementsWorld "API_KEY" <> "".
Proof.
  assert (resolveEnv requirementsWorld [requirements]
          = ([EvExec "echo h"], inr [resolvedRequirements])) as Hrun
    by (vm_compute; reflexivity).
  split; [exact Hrun |].
  destruct (resolved_env_entries requirementsWorld [requirements]
              [resolvedRequirements] [EvExec "echo h"] Hrun) as [_ Hall].
  destruct (Hall requirements "GREETING" "${echo hi")
    as (Hvalue & _); [now left | vm_compute; reflexivity |].
  destruct (Hall requirements "API_KEY" "<")
    as (_ & _ & _ & _ & Hkept); [now left | vm_compute; reflexivity |].
  split; [exact Hvalue |]. exact (Hkept eq_refl).
Defined.

Lemma env_failures_accumulate_witness :
  let w := Fixtures.withReversedRange Fixtures.twiceBrokenWorld in
  let fl := interactive ["c.yaml"] in
  In (EvExec "exit 1") (fst (main w fl))
  /\ In (EvPrintError "Unable to execute 'exit 1': exit status 1")
        (fst (main w fl))
  /\ In (EvPrintError "Missing required API_KEY environment variable")
        (fst (main w fl))
  /\ exitStatus (snd (main w fl)) = 1%Z.
Proof.
  intros w fl.
  destruct (env_failures_accumulate w fl false [Fixtures.twiceBroken] [] []
              None)
    as [Hvisit Hexit].
  - vm_compute; reflexivity.
  - reflexivity.
  - destruct (Hvisit Fixtures.twiceBroken "VERSION" "${exit 1}")
      as (Hexec & Herror & _); [now left | vm_compute; reflexivity |].
    destruct (Hvisit Fixtures.twiceBroken "API_KEY" "<")
      as (_ & _ & Hmissing); [now left | vm_compute; reflexivity |].
    destruct Hexit as (_ & Hstatus & _).
    { exists Fixtures.twiceBroken, "API_KEY", "<".
      split; [now left |]. split; vm_compute; reflexivity. }
    split; [apply Hexec; [reflexivity | cbn; lia] |].
    split; [apply (Herror "exit status 1");
            [reflexivity | cbn; lia | reflexivity] |].
    split; [now apply Hmissing | exact Hstatus].
Defined.

(** The same checklist under the two orders of its two entries: the same
    lines, the missing variable reported last in one and first in the other. *)
Lemma range_order_shows :
  let fl := interactive ["c.yaml"] in
  fst (main (Fixtures.withReversedRange Fixtures.twiceBrokenWorld) fl)
  = [EvExec "exit 1";
     EvPrintError "Unable to execute 'exit 1': exit status 1";
     EvPrintError "Missing required API_KEY environment variable"]
  /\ fst (main Fixtures.twiceBrokenWorld fl)
     = [EvPrintError "Missing required API_KEY environment variable";
        EvExec "exit 1";
        EvPrintError "Unable to execute 'exit 1': exit status 1"].
Proof. split; vm_compute; reflexivity. Qed.

Lemma abort_after_failure_witness :
  main upgradeWorld (unattended 1 ["upgrade.yaml"]) =
  (bannerLines "Upgrade"
     ++ [EvBlankItem backup;
         EvRunItemCheck quorum; EvFailItem quorum "" "";
         EvSkipItem notice "ABORTED"]
     ++ verdictLines true,
   Exited 1).
Proof.
  destruct (abort_after_failure upgradeWorld (unattended 1 ["upgrade.yaml"])
              [] None upgradeRunner [upgrade] [] [notice] quorum)
    as [Hmain _].
  - vm_compute; reflexivity.
  - cbn; lia.
  - reflexivity.
  - reflexivity.
  - reflexivity.
  - exact Hmain.
Defined.

Lemma skip_region_blank_witness :
  main upgradeWorld (unattended 1 ["upgrade.yaml"]) =
  (bannerLines "Upgrade"
     ++ [EvBlankItem backup]
     ++ [EvRunItemCheck quorum; EvFailItem quorum "" "";
         EvSkipItem notice "ABORTED"]
     ++ verdictLines true,
   Exited 1).
Proof.
  destruct (skip_region_blank upgradeWorld (unattended 1 ["upgrade.yaml"])
              [] None upgradeRunner [upgrade])
    as (Hmain & _).
  - vm_compute; reflexivity.
  - cbn; lia.
  - exact Hmain.
Defined.

(** C9 fails as stated: with three items and [-s 4] the slice built by
    [append] has capacity 4, so [allItems[:4]] is in range: the three items
    and one zero-valued item are rendered blank before [allItems[4:]]
    panics. *)
Lemma skip_within_capacity_renders :
  length (mergedItems [upgrade]) = 3%nat
  /\ capacity (collectItems upgradeWorld [upgrade]) = 4%nat
  /\ main upgradeWorld (unattended 4 ["upgrade.yaml"]) =
     (bannerLines "Upgrade"
        ++ [EvBlankItem backup; EvBlankItem quorum; EvBlankItem notice;
            EvBlankItem zeroItem],
      Panicked "slice bounds out of range").
Proof. repeat split; vm_compute; reflexivity. Qed.

Lemma skip_out_of_range_witness :
  main upgradeWorld (unattended (-1) ["upgrade.yaml"]) =
  (bannerLines "Upgrade", Panicked "slice bounds out of range").
Proof.
  destruct (skip_out_of_range upgradeWorld (unattended (-1) ["upgrade.yaml"])
              [] None upgradeRunner [upgrade])
    as (_ & _ & Hpanic & _).
  - vm_compute; reflexivity.
  - apply Hpanic. left. cbn; lia.
Defined.

Lemma command_marker_resolution_witness :
  HasPrefix "${echo hi" "${" = true
  /\ resolveEntry requirementsWorld (∅, false) ("GREETING", "${echo hi")
     = ([EvExec "echo h"], inr (<["GREETING" := "h"]> ∅, false)).
Proof.
  assert (HasPrefix "${echo hi" "${" = true) as Hmarker by reflexivity.
  split; [exact Hmarker |].
  destruct (command_marker_resolution requirementsWorld ∅ false "GREETING"
              "${echo hi" Hmarker) as [Hrun _].
  apply Hrun. cbn; lia.
Defined.

(** C8 fails as stated: where bash cannot be started, the entry [${}] is
    still run as a command, the error is printed and the failure is
    recorded. *)
Lemma empty_marker_fails_without_bash :
  resolveEntry (Fixtures.withoutBash requirementsWorld) (∅, false)
    ("EMPTY", "${}") =
  ([EvExec "";
    EvPrintError
      "Unable to execute '': exec: bash: executable file not found in $PATH"],
   inr (<["EMPTY" := ""]> ∅, true)).
Proof. vm_compute; reflexivity. Qed.

Lemma empty_marker_runs_bash_witness :
  BashOutput requirementsWorld "" = ("", None)
  /\ resolveEntry requirementsWorld (∅, false) ("EMPTY", "${}")
     = ([EvExec ""], inr (<["EMPTY" := ""]> ∅, false)).
Proof.
  assert (BashOutput requirementsWorld "" = ("", None)) as Hbash
    by reflexivity.
  split; [exact Hbash |].
  destruct (empty_marker_runs_bash requirementsWorld ∅ false "EMPTY")
    as [_ Hquiet].
  exact (Hquiet Hbash).
Defined.

End Runs.

(** * Further properties of [main] *)

(** ** Strings *)

Lemma substring_whole (s : string) : String.substring 0 (String.length s) s = s.
Proof. induction s as [| c s IH]; simpl; [reflexivity | now rewrite IH]. Qed.

Lemma substring_front (s rest : string) :
  String.substring 0 (String.length s) (s +:+ rest) = s.
Proof.
  induction s as [| c s IH]; simpl.
  - now destruct rest.
  - now rewrite IH.
Qed.

Lemma length_append (s rest : string) :
  String.length (s +:+ rest) = (String.length s + String.length rest)%nat.
Proof. induction s as [| c s IH]; simpl; [reflexivity | now rewrite IH]. Qed.

(** ** Loading the arguments *)

Lemma linked_fold (items : list ChecklistItem) :
  forall u,
    fold_left
      (fun u step => if negb (String.eqb (RunbookID step) "") then true else u)
      items u
    = u || existsb (fun item => negb (String.eqb (RunbookID item) "")) items.
Proof.
  induction items as [| item rest IH]; intros u; simpl.
  - now rewrite orb_false_r.
  - rewrite IH. destruct (negb (String.eqb (RunbookID item) "")); simpl.
    + now rewrite orb_true_r.
    + reflexivity.
Qed.

Lemma loadArg_run w useRunbook files fname tr useRunbook' files' :
  loadArg w (useRunbook, files) fname = (tr, inr (useRunbook', files')) ->
  tr = [] /\
  exists file,
    files' = files ++ [file] /\ argFile w fname file /\
    useRunbook' = useRunbook || needsRunbook file.
Proof.
  unfold loadArg, argFile. destruct (HasPrefix fname "runbook:").
  - intros [= <- <- <-]. split; [reflexivity |].
    exists (syntheticFile (sliceFrom fname 8)).
    repeat split. now rewrite orb_true_r.
  - destruct (LoadChecklist w fname) as [err | checklist]; [discriminate |].
    intros [= <- <- <-]. split; [reflexivity |].
    exists checklist. repeat split.
    rewrite linked_fold. unfold needsRunbook.
    destruct (0 <? length (RunbookSteps checklist))%nat; simpl.
    + now rewrite orb_true_r.
    + reflexivity.
Qed.

Lemma loadArgs_run w args :
  forall useRunbook files tr useRunbook' files',
    Proc.foldM (loadArg w) (useRunbook, files) args
      = (tr, inr (useRunbook', files')) ->
    tr = [] /\
    exists loaded,
      files' = files ++ loaded /\ Forall2 (argFile w) args loaded /\
      useRunbook' = useRunbook || existsb needsRunbook loaded.
Proof.
  induction args as [| fname rest IH]; intros u files tr u' files' Hrun.
  - injection Hrun as <- <- <-. split; [reflexivity |]. exists [].
    rewrite app_nil_r, orb_false_r. repeat split. constructor.
  - simpl in Hrun.
    apply bind_inr in Hrun as (tr1 & [u1 files1] & tr2 & H1 & H2 & ->).
    apply loadArg_run in H1 as [-> (file & -> & Hfile & ->)].
    apply IH in H2 as [-> (loaded & -> & Hloaded & ->)].
    split; [reflexivity |]. exists (file :: loaded).
    rewrite <- app_assoc. simpl. rewrite orb_assoc.
    repeat split. now constructor.
Qed.

Lemma loadChecklists_run w fl tr useRunbook files :
  loadChecklists w fl = (tr, inr (useRunbook, files)) ->
  tr = [] /\ Forall2 (argFile w) (Args fl) files /\
  useRunbook = existsb needsRunbook files.
Proof.
  unfold loadChecklists. destruct (length (Args fl) =? 0)%nat; [discriminate |].
  intros Hrun. apply loadArgs_run in Hrun as [-> (loaded & -> & Hloaded & ->)].
  simpl. auto.
Qed.

(** X1: the runbook client is created exactly when it is needed: after a
    successful load, [useRunbook] is set if and only if some checklist names
    a runbook step or has an item with a runbook id (a [runbook:] argument
    always does), and the client is nil exactly when no checklist needs
    it. *)
Theorem runbook_client_lazy (w : World) (fl : Flags) (tr0 tr1 : list Event)
    (useRunbook : bool) (files : list ChecklistFile)
    (runbook : option RunbookClient)
    (Hload : loadChecklists w fl = (tr0, inr (useRunbook, files)))
    (Hclient : createRunbook w useRunbook = (tr1, inr runbook)) :
  useRunbook = existsb needsRunbook files /\
  (runbook = None <-> existsb needsRunbook files = false) /\
  (forall client,
     runbook = Some client -> CreateRunbookClientWithEnvConfig w = inr client).
Proof.
  apply loadChecklists_run in Hload as (_ & _ & Huse).
  split; [exact Huse |]. rewrite <- Huse. clear Huse.
  unfold createRunbook in Hclient. destruct useRunbook.
  - destruct (CreateRunbookClientWithEnvConfig w) as [err | c]; [discriminate |].
    injection Hclient as _ <-. split; [split; discriminate |].
    intros client Hsame. congruence.
  - injection Hclient as _ <-. split; [split; reflexivity |]. discriminate.
Qed.

(** X2: a successful load yields one checklist per argument, in argument
    order: the synthetic one-step checklist for a [runbook:<step>] argument,
    and what [LoadChecklist] returned for any other. *)
Theorem checklists_follow_arguments (w : World) (fl : Flags) (tr : list Event)
    (useRunbook : bool) (files : list ChecklistFile)
    (Hload : loadChecklists w fl = (tr, inr (useRunbook, files))) :
  Forall2 (argFile w) (Args fl) files /\
  length files = length (Args fl) /\
  tr = [].
Proof.
  apply loadChecklists_run in Hload as (-> & Hfiles & _).
  split; [exact Hfiles |]. split; [| reflexivity].
  symmetry. now apply (Forall2_length (argFile w)).
Qed.

(** X3: the argument [runbook:<step>] stands for a fresh checklist whatever
    [LoadChecklist] would answer for it: whatever [<step>] is, it becomes
    the only step of a checklist titled "Runbook Checklist", with no items
    and no environment, and it sets [useRunbook]. *)
Theorem runbook_argument (w : World) (useRunbook : bool)
    (files : list ChecklistFile) (step : string) :
  loadArg w (useRunbook, files) ("runbook:" +:+ step) =
  ([], inr (true, files ++ [mkFile "Runbook Checklist" "" ∅ [] [step]])).
Proof.
  unfold loadArg.
  assert (HasPrefix ("runbook:" +:+ step) "runbook:" = true) as ->.
  { unfold HasPrefix. simpl. now destruct step. }
  assert (sliceFrom ("runbook:" +:+ step) 8 = step) as ->.
  { unfold sliceFrom, len. simpl. rewrite Nat.sub_0_r. apply substring_whole. }
  reflexivity.
Qed.

Lemma loadArgs_good w args :
  Forall (fun fname =>
            HasPrefix fname "runbook:" = true \/
            exists file, LoadChecklist w fname = inr file) args ->
  forall st, exists st', Proc.foldM (loadArg w) st args = ([], inr st').
Proof.
  induction 1 as [| fname rest Hgood _ IH]; intros [u files];
    cbn [Proc.foldM].
  - now eexists.
  - assert (exists st1, loadArg w (u, files) fname = ([], inr st1)) as [st1 ->].
    { unfold loadArg. destruct Hgood as [-> | [file Hfile]]; [now eexists |].
      destruct (HasPrefix fname "runbook:"); [now eexists |].
      rewrite Hfile. now eexists. }
    rewrite bind_nil. apply IH.
Qed.

Lemma foldM_app {A B} (body : A -> B -> Proc.t A) (xs ys : list B) :
  forall acc,
    Proc.foldM body acc (xs ++ ys) =
    Proc.bind (Proc.foldM body acc xs) (fun acc' => Proc.foldM body acc' ys).
Proof.
  induction xs as [| x rest IH]; intros acc; cbn [Proc.foldM app].
  - now rewrite bind_ret.
  - destruct (body acc x) as [tr [o | a]]; [reflexivity |].
    rewrite !bind_value, IH.
    destruct (Proc.foldM body a rest) as [tr1 [o | a1]]; simpl;
      [reflexivity |].
    destruct (Proc.foldM body a1 ys) as [tr2 r]; simpl.
    now rewrite app_assoc.
Qed.

(** X4: a checklist that does not load ends the run at once: when the
    arguments before it load (or are [runbook:] arguments), the run does
    nothing but print its error, no later argument matters, and [main]
    returns. *)
Theorem load_failure_stops (w : World) (fl : Flags)
    (before after : list string) (bad : string) (err : error)
    (Hargs : Args fl = before ++ bad :: after)
    (Hbefore : Forall (fun fname =>
                         HasPrefix fname "runbook:" = true \/
                         exists file, LoadChecklist w fname = inr file) before)
    (Hfile : HasPrefix bad "runbook:" = false)
    (Hbad : LoadChecklist w bad = inl err) :
  main w fl = ([EvPrintError err], Returned).
Proof.
  assert (loadChecklists w fl = ([EvPrintError err], inl Returned)) as Hload.
  { unfold loadChecklists. rewrite Hargs.
    assert ((length (before ++ bad :: after) =? 0)%nat = false) as ->.
    { apply Nat.eqb_neq. rewrite length_app. simpl. lia. }
    rewrite foldM_app.
    destruct (loadArgs_good w before Hbefore (false, [])) as [[u files] ->].
    rewrite bind_nil. cbn [Proc.foldM]. unfold loadArg at 1.
    rewrite Hfile, Hbad. reflexivity. }
  unfold main, program, startup. now rewrite Hload.
Qed.

(** X5: when a checklist needs the runbook and the client cannot be
    created, the run prints "Could not use runbook: <error>" and exits with
    status 1 before any environment command is run or any step fetched. *)
Theorem runbook_client_failure (w : World) (fl : Flags) (tr : list Event)
    (files : list ChecklistFile) (err : error)
    (Hload : loadChecklists w fl = (tr, inr (true, files)))
    (Hclient : CreateRunbookClientWithEnvConfig w = inl err) :
  main w fl = ([EvPrintError ("Could not use runbook: " +:+ err)], Exited 1)
  /\ exitStatus (snd (main w fl)) = 1%Z.
Proof.
  destruct (loadChecklists_ok _ _ _ _ _ Hload) as [-> _].
  assert (main w fl
          = ([EvPrintError ("Could not use runbook: " +:+ err)], Exited 1))
    as Hmain.
  { unfold main, program, startup. rewrite Hload, bind_nil.
    unfold createRunbook. rewrite Hclient. reflexivity. }
  rewrite Hmain. auto.
Qed.

(** ** Runbook expansion *)

Lemma fetchStep_good w runbook items step checklist :
  ChecklistFromRunbook w runbook step = inr checklist ->
  fetchStep w runbook items step = ([EvFetch step], inr (items ++ checklist)).
Proof. intros Hstep. unfold fetchStep. now rewrite Hstep. Qed.

Lemma fetchStep_bad w runbook items step err :
  ChecklistFromRunbook w runbook step = inl err ->
  fetchStep w runbook items step =
  ([EvFetch step;
    EvPrintError
      ("Could not fetch checklist for step " +:+ step +:+ ": " +:+ err)],
   inl (Exited 1)).
Proof. intros Hstep. unfold fetchStep. now rewrite Hstep. Qed.

Lemma fetchSteps_good w runbook steps :
  Forall (fetchSucceeds w runbook) steps ->
  forall items,
    Proc.foldM (fetchStep w runbook) items steps =
    (map EvFetch steps, inr (items ++ fetchedItems w runbook steps)).
Proof.
  induction 1 as [| step rest [checklist Hstep] _ IH]; intros items;
    cbn [Proc.foldM].
  - unfold fetchedItems. simpl. now rewrite app_nil_r.
  - rewrite (fetchStep_good _ _ _ _ _ Hstep), bind_value, IH.
    unfold fetchedItems. simpl. rewrite Hstep. now rewrite <- app_assoc.
Qed.

Lemma fetchSteps_inv w runbook steps :
  forall items tr items',
    Proc.foldM (fetchStep w runbook) items steps = (tr, inr items') ->
    Forall (fetchSucceeds w runbook) steps.
Proof.
  induction steps as [| step rest IH]; intros items tr items' Hrun;
    [constructor |].
  cbn [Proc.foldM] in Hrun.
  apply bind_inr in Hrun as (tr1 & items1 & tr2 & H1 & H2 & _).
  constructor; [| now apply (IH items1 tr2 items')].
  unfold fetchStep in H1.
  destruct (ChecklistFromRunbook w runbook step) as [err | checklist] eqn:Hstep;
    [discriminate |].
  now exists checklist.
Qed.

Lemma expandedFile_plain w runbook file :
  RunbookSteps file = [] -> expandedFile w runbook file = file.
Proof.
  intros Hnone. unfold expandedFile, setChecklist. rewrite Hnone.
  unfold fetchedItems. simpl. rewrite app_nil_r.
  destruct file; simpl in *. now subst.
Qed.

Lemma expandFile_good w runbook expanded file :
  Forall (fetchSucceeds w runbook) (RunbookSteps file) ->
  expandFile w runbook expanded file =
  (map EvFetch (RunbookSteps file),
   inr (expanded ++ [expandedFile w runbook file])).
Proof.
  intros Hsteps. unfold expandFile.
  destruct (RunbookSteps file) as [| step rest] eqn:Hlist.
  - simpl. now rewrite (expandedFile_plain w runbook file Hlist).
  - cbn [length Nat.ltb Nat.leb].
    rewrite (fetchSteps_good w runbook _ Hsteps), bind_value. simpl.
    rewrite app_nil_r. unfold expandedFile. now rewrite Hlist.
Qed.

Lemma expandFiles_good w runbook files :
  Forall (fun file => Forall (fetchSucceeds w runbook) (RunbookSteps file))
         files ->
  forall expanded,
    Proc.foldM (expandFile w runbook) expanded files =
    (map EvFetch (flat_map RunbookSteps files),
     inr (expanded ++ map (expandedFile w runbook) files)).
Proof.
  induction 1 as [| file rest Hfile _ IH]; intros expanded; cbn [Proc.foldM].
  - simpl. now rewrite app_nil_r.
  - rewrite (expandFile_good _ _ _ _ Hfile), bind_value, IH. simpl.
    now rewrite map_app, <- app_assoc.
Qed.

Lemma expandFiles_inv w runbook files :
  forall expanded tr expanded',
    Proc.foldM (expandFile w runbook) expanded files = (tr, inr expanded') ->
    Forall (fun file => Forall (fetchSucceeds w runbook) (RunbookSteps file))
           files.
Proof.
  induction files as [| file rest IH]; intros expanded tr expanded' Hrun;
    [constructor |].
  cbn [Proc.foldM] in Hrun.
  apply bind_inr in Hrun as (tr1 & e1 & tr2 & H1 & H2 & _).
  constructor; [| now apply (IH e1 tr2 expanded')].
  unfold expandFile in H1.
  destruct (0 <? length (RunbookSteps file))%nat eqn:Hany.
  - apply bind_inr in H1 as (tr3 & items & tr4 & H3 & _ & _).
    now apply (fetchSteps_inv w runbook _ _ _ _ H3).
  - destruct (RunbookSteps file); [constructor | discriminate].
Qed.

Lemma mergedItems_expanded w runbook files :
  mergedItems (map (expandedFile w runbook) files) =
  flat_map (fun file =>
              Checklist file ++ fetchedItems w runbook (RunbookSteps file))
           files.
Proof.
  unfold mergedItems. induction files as [| file rest IH]; [reflexivity |].
  simpl. now rewrite IH.
Qed.

(** X6: when runbook expansion succeeds, every step of every checklist was
    fetched once, in file order and then step order; each checklist keeps its
    own items and gets the fetched items appended behind them, step by step;
    its title, file name, environment and steps are unchanged. *)
Theorem expansion_appends_in_order (w : World)
    (runbook : option RunbookClient) (files expanded : list ChecklistFile)
    (tr : list Event)
    (Hrun : expandRunbook w runbook files = (tr, inr expanded)) :
  tr = map EvFetch (flat_map RunbookSteps files) /\
  expanded = map (expandedFile w runbook) files /\
  mergedItems expanded =
    flat_map (fun file =>
                Checklist file ++ fetchedItems w runbook (RunbookSteps file))
             files /\
  Forall2 (fun file file' =>
             FileTitle file' = FileTitle file /\
             Filename file' = Filename file /\
             Env file' = Env file /\
             RunbookSteps file' = RunbookSteps file /\
             Checklist file' =
               Checklist file ++ fetchedItems w runbook (RunbookSteps file))
          files expanded.
Proof.
  unfold expandRunbook in Hrun.
  pose proof (expandFiles_inv _ _ _ _ _ _ Hrun) as Hsteps.
  rewrite (expandFiles_good w runbook files Hsteps) in Hrun.
  injection Hrun as <- <-. simpl.
  split; [reflexivity |]. split; [reflexivity |].
  split; [apply mergedItems_expanded |].
  clear. induction files as [| file rest IH]; simpl; constructor; auto.
Qed.

Lemma expandFile_bad w runbook expanded file stepsBefore stepsAfter bad err :
  RunbookSteps file = stepsBefore ++ bad :: stepsAfter ->
  Forall (fetchSucceeds w runbook) stepsBefore ->
  ChecklistFromRunbook w runbook bad = inl err ->
  expandFile w runbook expanded file =
  (map EvFetch stepsBefore
     ++ [EvFetch bad;
         EvPrintError
           ("Could not fetch checklist for step " +:+ bad +:+ ": " +:+ err)],
   inl (Exited 1)).
Proof.
  intros Hsteps Hbefore Hbad. unfold expandFile. rewrite Hsteps.
  assert ((0 <? length (stepsBefore ++ bad :: stepsAfter))%nat = true) as ->.
  { apply Nat.ltb_lt. rewrite length_app. simpl. lia. }
  rewrite foldM_app, (fetchSteps_good w runbook stepsBefore Hbefore), bind_value.
  cbn [Proc.foldM]. rewrite (fetchStep_bad _ _ _ _ _ Hbad). reflexivity.
Qed.

(** X7: the first runbook step that cannot be fetched is fatal: the steps
    before it (of earlier checklists, and earlier in the same checklist)
    have been fetched, its error is printed with the step id, nothing later
    is fetched, and the process exits with status 1. *)
Theorem fetch_failure_is_fatal (w : World) (runbook : option RunbookClient)
    (filesBefore filesAfter : list ChecklistFile) (file : ChecklistFile)
    (stepsBefore stepsAfter : list string) (bad : string) (err : error)
    (Hfiles : Forall (fun file =>
                        Forall (fetchSucceeds w runbook) (RunbookSteps file))
                     filesBefore)
    (Hsteps : RunbookSteps file = stepsBefore ++ bad :: stepsAfter)
    (Hbefore : Forall (fetchSucceeds w runbook) stepsBefore)
    (Hbad : ChecklistFromRunbook w runbook bad = inl err) :
  expandRunbook w runbook (filesBefore ++ file :: filesAfter) =
  (map EvFetch (flat_map RunbookSteps filesBefore ++ stepsBefore)
     ++ [EvFetch bad;
         EvPrintError
           ("Could not fetch checklist for step " +:+ bad +:+ ": " +:+ err)],
   inl (Exited 1)).
Proof.
  unfold expandRunbook.
  rewrite foldM_app, (expandFiles_good w runbook filesBefore Hfiles), bind_value.
  cbn [Proc.foldM].
  rewrite (expandFile_bad _ _ _ _ _ _ _ _ Hsteps Hbefore Hbad).
  cbn [Proc.bind fst snd]. now rewrite map_app, <- app_assoc.
Qed.

(** ** Listing *)

Lemma bind_step {A B} (tr tr' : list Event) (a : A) (k : A -> Proc.t B) r :
  k a = (tr', r) -> Proc.bind (tr, inr a) k = (tr ++ tr', r).
Proof. intros Hk. unfold Proc.bind. now rewrite Hk. Qed.

Lemma itemLinesFrom_app (xs ys : list ChecklistItem) :
  forall i,
    itemLinesFrom i (xs ++ ys) =
    itemLinesFrom i xs ++ itemLinesFrom (i + Z.of_nat (length xs)) ys.
Proof.
  induction xs as [| x rest IH]; intros i; simpl.
  - now rewrite Z.add_0_r.
  - rewrite IH. do 3 f_equal. lia.
Qed.

Lemma itemLinesFrom_filter (items : list ChecklistItem) :
  forall i,
    List.filter isItemLine (itemLinesFrom i items) = itemLinesFrom i items.
Proof.
  induction items as [| item rest IH]; intros i; [reflexivity |].
  cbn [itemLinesFrom List.filter isItemLine].
  rewrite String.eqb_refl. now rewrite IH.
Qed.

Lemma listItems_run (items : list ChecklistItem) :
  forall i,
    Proc.foldM listItem i items =
    (itemLinesFrom i items, inr (i + Z.of_nat (length items))%Z).
Proof.
  induction items as [| item rest IH]; intros i; cbn [Proc.foldM].
  - simpl. now rewrite Z.add_0_r.
  - unfold listItem at 1. unfold Proc.emit, Proc.ret.
    rewrite bind_value. cbn [fst snd app]. rewrite bind_value, IH.
    cbn [fst snd itemLinesFrom length app]. do 2 f_equal. lia.
Qed.

Lemma listFile_run (i : Z) (file : ChecklistFile) :
  listFile i file =
  (EvPrintf ("In %s (%s):" +:+ nl) [AStr (Filename file); AStr (FileTitle file)]
     :: itemLinesFrom i (Checklist file) ++ [EvPrintln []],
   inr (i + Z.of_nat (length (Checklist file)))%Z).
Proof.
  unfold listFile, Proc.emit.
  apply (bind_step [_] (itemLinesFrom i (Checklist file) ++ [EvPrintln []])).
  rewrite listItems_run. apply bind_step. reflexivity.
Qed.

Lemma itemLinesFrom_prints (items : list ChecklistItem) :
  forall i,
    Forall (fun e => match e with
                     | EvPrintf _ _ | EvPrintln _ => True
                     | _ => False
                     end) (itemLinesFrom i items).
Proof.
  induction items as [| item rest IH]; intros i; simpl; constructor; auto.
Qed.

Lemma listFiles_run (files : list ChecklistFile) :
  forall i,
    exists lines,
      Proc.foldM listFile i files =
      (lines, inr (i + Z.of_nat (length (mergedItems files)))%Z) /\
      List.filter isItemLine lines = itemLinesFrom i (mergedItems files) /\
      Forall (fun e => match e with
                       | EvPrintf _ _ | EvPrintln _ => True
                       | _ => False
                       end) lines.
Proof.
  induction files as [| file rest IH]; intros i; cbn [Proc.foldM].
  - exists []. simpl. rewrite Z.add_0_r. repeat split. constructor.
  - destruct (IH (i + Z.of_nat (length (Checklist file)))%Z)
      as (lines & Hrest & Hlines & Hprints).
    eexists. split; [| split].
    + rewrite listFile_run. apply bind_step. rewrite Hrest. f_equal. f_equal.
      unfold mergedItems. simpl. rewrite length_app.
      fold (mergedItems rest). lia.
    + cbn [app List.filter isItemLine]. rewrite !List.filter_app.
      cbn [List.filter isItemLine].
      rewrite itemLinesFrom_filter, Hlines.
      unfold mergedItems. simpl. fold (mergedItems rest).
      rewrite itemLinesFrom_app. simpl. now rewrite app_nil_r.
    + cbn [app]. constructor; [exact I |].
      apply Forall_app. split; [| exact Hprints].
      apply Forall_app. split; [apply itemLinesFrom_prints |].
      repeat constructor.
Qed.

(** X8: with [-l], once the checklists are loaded, resolved and expanded,
    the run lists the items and exits with status 0 whatever [-s] and [-a]
    say: the items are numbered 1, 2, ... in one sequence across all
    checklists, in merged order, the last line gives their total number, and
    the listing itself consists of print calls only. *)
Theorem list_mode_numbers_items (w : World) (fl : Flags)
    (tr0 tr1 tr2 tr3 : list Event) (useRunbook : bool)
    (runbook : option RunbookClient)
    (loaded resolved files : list ChecklistFile)
    (Hload : loadChecklists w fl = (tr0, inr (useRunbook, loaded)))
    (Hclient : createRunbook w useRunbook = (tr1, inr runbook))
    (Henv : resolveEnv w loaded = (tr2, inr resolved))
    (Hexpand : expandRunbook w runbook resolved = (tr3, inr files))
    (Hlist : fList fl = true) :
  exists lines,
    main w fl =
    (tr2 ++ tr3 ++ lines
       ++ [EvPrintf ("%d items in total" +:+ nl)
             [AInt (Z.of_nat (length (mergedItems files)))]],
     Exited 0) /\
    List.filter isItemLine lines = itemLinesFrom 0 (mergedItems files) /\
    Forall (fun e => match e with
                     | EvPrintf _ _ | EvPrintln _ => True
                     | _ => False
                     end) lines /\
    exitStatus (snd (main w fl)) = 0%Z.
Proof.
  destruct (loadChecklists_ok _ _ _ _ _ Hload) as [-> _].
  rewrite (createRunbook_ok _ _ _ _ Hclient) in Hclient.
  destruct (listFiles_run files 0%Z) as (lines & Hlines & Hfilter & Hprints).
  exists lines.
  assert (startup w fl =
          (tr2 ++ tr3 ++ lines
             ++ [EvPrintf ("%d items in total" +:+ nl)
                   [AInt (Z.of_nat (length (mergedItems files)))]],
           inl (Exited 0))) as Hstart.
  { unfold startup. rewrite Hload, bind_nil, Hclient, bind_nil, Henv.
    apply bind_step. rewrite Hexpand. apply bind_step.
    unfold listAndExit. rewrite Hlist, Hlines.
    cbn [Proc.bind Proc.emit Proc.halt fst snd].
    now rewrite !app_nil_r. }
  assert (main w fl =
          (tr2 ++ tr3 ++ lines
             ++ [EvPrintf ("%d items in total" +:+ nl)
                   [AInt (Z.of_nat (length (mergedItems files)))]],
           Exited 0)) as Hmain.
  { unfold main, program. now rewrite Hstart. }
  rewrite Hmain. auto.
Qed.

(** ** More on environment resolution *)

Lemma TrimRight_splits (s cutset : string) :
  exists suffix,
    s = TrimRight s cutset +:+ suffix /\
    allInCutset suffix cutset = true /\
    endsInCutset (TrimRight s cutset) cutset = false.
Proof.
  induction s as [| c rest (suffix & Hsplit & Hall & Hend)].
  - exists "". auto.
  - cbn [TrimRight]. destruct (TrimRight rest cutset) as [| d kept] eqn:Hkept.
    + change (rest = suffix) in Hsplit. rewrite <- Hsplit in Hall.
      clear Hsplit suffix.
      destruct (inCutset c cutset) eqn:Hc.
      * exists (String c rest). simpl. rewrite Hc, Hall. auto.
      * exists rest. simpl. auto.
    + exists suffix. split; [simpl; now rewrite Hsplit at 1 |].
      split; [assumption |]. exact Hend.
Qed.

(** X9: a command entry never keeps trailing whitespace: the value stored
    for a [${...}] entry of length at least 3 is the output of its command
    with a suffix of newlines, carriage returns, tabs and spaces removed, and
    it does not end in one of those; leading and inner whitespace is kept. *)
Theorem command_output_right_trimmed (w : World) (env : gmap string string)
    (failed : bool) (key value : string)
    (Hmarker : HasPrefix value "${" = true)
    (Hlen : (3 <= len value)%nat) :
  exists stored suffix tr failed',
    resolveEntry w (env, failed) (key, value)
      = (tr, inr (<[key := stored]> env, failed')) /\
    fst (BashOutput w (slice value 2 (len value - 1))) = stored +:+ suffix /\
    allInCutset suffix trimCutset = true /\
    endsInCutset stored trimCutset = false.
Proof.
  destruct (TrimRight_splits
              (fst (BashOutput w (slice value 2 (len value - 1)))) trimCutset)
    as (suffix & Hsplit & Hall & Hend).
  exists (TrimRight (fst (BashOutput w (slice value 2 (len value - 1))))
            trimCutset), suffix.
  rewrite resolveEntry_step. unfold entryUpdate, resolvedValue, commandOf.
  cbn [fst snd]. rewrite Hmarker.
  assert ((len value <? 3)%nat = false) as -> by (apply Nat.ltb_ge; lia).
  eexists _, _. split; [reflexivity |]. auto.
Qed.

Lemma marker_command (cmd : string) :
  HasPrefix ("${" +:+ cmd +:+ "}") "${" = true /\
  (len ("${" +:+ cmd +:+ "}") <? 3)%nat = false /\
  slice ("${" +:+ cmd +:+ "}") 2 (len ("${" +:+ cmd +:+ "}") - 1) = cmd.
Proof.
  split; [| split].
  - unfold HasPrefix. simpl. now destruct (cmd +:+ "}").
  - apply Nat.ltb_ge. unfold len. rewrite !length_append. simpl. lia.
  - unfold slice, len. rewrite !length_append.
    change (String.length "${") with 2%nat.
    change (String.length "}") with 1%nat.
    replace (2 + (String.length cmd + 1) - 1 - 2)%nat
      with (String.length cmd) by lia.
    change ("${" +:+ cmd +:+ "}") with (String "$" (String "{" (cmd +:+ "}"))).
    cbn [String.substring]. apply substring_front.
Qed.

(** X10: a well-formed marker [${cmd}] runs exactly [cmd], whatever [cmd]
    is (empty, or itself containing braces), reports "Unable to execute
    'cmd': <error>" and sets the failure flag if the run fails, and stores
    the right-trimmed output under the key in either case. *)
Theorem braced_command_runs_verbatim (w : World) (env : gmap string string)
    (failed : bool) (key cmd : string) :
  resolveEntry w (env, failed) (key, "${" +:+ cmd +:+ "}") =
  (EvExec cmd ::
     match snd (BashOutput w cmd) with
     | Some e => [EvPrintError ("Unable to execute '" +:+ cmd +:+ "': " +:+ e)]
     | None => []
     end,
   inr (<[key := TrimRight (fst (BashOutput w cmd)) trimCutset]> env,
        match snd (BashOutput w cmd) with
        | Some _ => true
        | None => failed
        end)).
Proof.
  destruct (marker_command cmd) as (Hmarker & Hlen & Hcmd).
  rewrite resolveEntry_step.
  unfold entryEvents, entryUpdate, entryFails, resolvedValue, commandOf.
  cbn [fst snd]. rewrite Hmarker, Hlen, Hcmd.
  destruct (snd (BashOutput w cmd)); [now rewrite orb_true_r |].
  now rewrite orb_false_r.
Qed.

(** X11: environment resolution only rewrites values: when it succeeds,
    every checklist comes out in the same position with the same set of
    variable names, and with its title, file name, items and runbook steps
    untouched. *)
Theorem resolution_keeps_names (w : World)
    (files resolved : list ChecklistFile) (tr : list Event)
    (Hok : resolveEnv w files = (tr, inr resolved)) :
  Forall2 (fun file file' =>
             dom (Env file') = dom (Env file) /\
             FileTitle file' = FileTitle file /\
             Filename file' = Filename file /\
             Checklist file' = Checklist file /\
             RunbookSteps file' = RunbookSteps file)
          files resolved.
Proof.
  rewrite resolveEnv_run in Hok.
  destruct (existsb (fileFails w) files); [discriminate |].
  injection Hok as _ <-. clear.
  induction files as [| file rest IH]; simpl; constructor; [| exact IH].
  repeat split. simpl. apply dom_fmap_L.
Qed.

Lemma commandsRun_app (tr1 tr2 : list Event) :
  commandsRun (tr1 ++ tr2) = commandsRun tr1 ++ commandsRun tr2.
Proof. unfold commandsRun. now rewrite flat_map_app. Qed.

Lemma commandsRun_entry w key value :
  commandsRun (entryEvents w key value) =
  if isCommandEntry (key, value) then [commandOf value] else [].
Proof.
  unfold entryEvents, isCommandEntry. cbn [snd].
  destruct (HasPrefix value "${"); cbn [andb].
  - destruct (3 <=? len value)%nat eqn:Hlen.
    + assert ((len value <? 3)%nat = false) as ->
        by (apply Nat.ltb_ge; now apply Nat.leb_le).
      now destruct (snd (BashOutput w (commandOf value))).
    + assert ((len value <? 3)%nat = true) as ->
        by (apply Nat.ltb_lt; apply Nat.leb_gt in Hlen; lia).
      reflexivity.
  - destruct (String.eqb value "<"); [| reflexivity].
    now destruct (String.eqb (Getenv w key) "").
Qed.

Lemma commandsRun_entries w (entries : list (string * string)) :
  commandsRun (flat_map (fun kv => entryEvents w (fst kv) (snd kv)) entries) =
  map (fun kv => commandOf (snd kv)) (List.filter isCommandEntry entries).
Proof.
  induction entries as [| [key value] rest IH]; [reflexivity |].
  cbn [flat_map List.filter fst snd].
  rewrite commandsRun_app, commandsRun_entry, IH.
  now destruct (isCommandEntry (key, value)).
Qed.

Lemma commandsRun_orders w (orders : list (list (string * string))) :
  commandsRun (flat_map (orderEvents w) orders) =
  concat (map (fun order =>
                 map (fun kv => commandOf (snd kv))
                     (List.filter isCommandEntry order))
              orders).
Proof.
  induction orders as [| order rest IH]; [reflexivity |].
  cbn [flat_map map concat].
  rewrite commandsRun_app, IH. f_equal. apply commandsRun_entries.
Qed.

Lemma command_entries_visited {B} (f : string * string -> B)
    (order order' : list (string * string)) :
  Permutation order order' ->
  Permutation (map f (List.filter isCommandEntry order))
              (map f (List.filter isCommandEntry order')).
Proof.
  induction 1 as [| kv l l' _ IH | kv kv' l | l l' l'' _ IH1 _ IH2].
  - constructor.
  - cbn [List.filter]. destruct (isCommandEntry kv); [| exact IH].
    cbn [map]. now constructor.
  - cbn [List.filter].
    destruct (isCommandEntry kv), (isCommandEntry kv'); cbn [map];
      try reflexivity.
    constructor.
  - now transitivity (map f (List.filter isCommandEntry l')).
Qed.

(** X12: the resolution pass runs one command per command entry, no more
    and no fewer, whether or not entries fail: checklist by checklist, the
    commands run for a checklist are the texts of its [${...}] entries of
    length at least 3, in the order in which its map is ranged over, that
    is up to permutation within the checklist; literal entries, [<] entries
    and the bare [${] run nothing. *)
Theorem one_command_per_entry (w : World) (files : list ChecklistFile) :
  exists chunks : list (list string),
    commandsRun (fst (resolveEnv w files)) = concat chunks /\
    Forall2 (fun file chunk =>
               Permutation chunk
                 (map (fun kv => slice (snd kv) 2 (len (snd kv) - 1))
                      (List.filter isCommandEntry (map_to_list (Env file)))))
            files chunks.
Proof.
  rewrite resolveEnv_run. cbn [fst]. unfold envTrace.
  rewrite commandsRun_orders.
  eexists. split; [reflexivity |].
  pose proof (rangeOrders_visit w files 0) as Hvisits.
  induction Hvisits as [| file order rest orders Hvisit _ IH]; cbn [map];
    constructor; [| exact IH].
  apply (command_entries_visited
           (fun kv => slice (snd kv) 2 (len (snd kv) - 1))).
  exact Hvisit.
Qed.

Lemma resolvedFile_same w file :
  (forall key value,
     Env file !! key = Some value -> HasPrefix value "${" = false) ->
  resolvedFile w file = file.
Proof.
  intros Hplain. unfold resolvedFile, setEnv.
  assert (resolvedValue w <$> Env file = Env file) as ->.
  { apply map_eq. intros key. rewrite lookup_fmap.
    destruct (Env file !! key) as [value |] eqn:Hentry; [| reflexivity].
    simpl. unfold resolvedValue. now rewrite (Hplain key value Hentry). }
  now destruct file.
Qed.

(** X13: when no entry is a [${...}] marker and every [<] entry names a
    variable that is set and not empty, environment resolution prints
    nothing, runs nothing and leaves every checklist exactly as it was. *)
Theorem satisfied_env_untouched (w : World) (files : list ChecklistFile)
    (Hplain : forall file key value,
        In file files -> Env file !! key = Some value ->
        HasPrefix value "${" = false /\ (value = "<" -> Getenv w key <> "")) :
  resolveEnv w files = ([], inr files).
Proof.
  assert (forall file key value,
             In file files -> Env file !! key = Some value ->
             entryEvents w key value = [] /\ entryFails w key value = false)
    as Hquiet.
  { intros file key value Hfile Hentry.
    destruct (Hplain file key value Hfile Hentry) as [Hmarker Hset].
    unfold entryEvents, entryFails. rewrite Hmarker.
    destruct (String.eqb value "<") eqn:Hreq; [| auto].
    apply String.eqb_eq in Hreq. apply Hset, String.eqb_neq in Hreq.
    now rewrite Hreq. }
  rewrite resolveEnv_run.
  assert (envTrace w files = []
          /\ existsb (fileFails w) files = false
          /\ map (resolvedFile w) files = files) as (-> & -> & ->);
    [| reflexivity].
  split; [| split].
  - destruct (envTrace w files) as [| e tr] eqn:Htrace; [reflexivity |].
    assert (In e (envTrace w files)) as He by (rewrite Htrace; now left).
    apply envTrace_events in He as (f & k & v & Hf & Hentry & He).
    destruct (Hquiet f k v Hf Hentry) as [Hnone _].
    rewrite Hnone in He. destruct He.
  - destruct (existsb (fileFails w) files) eqn:Hfails; [| reflexivity].
    apply existsb_exists in Hfails as (f & Hf & Hfails).
    unfold fileFails in Hfails.
    apply existsb_exists in Hfails as ([k v] & Hkv & Hfails).
    apply list_elem_of_In, elem_of_map_to_list in Hkv.
    destruct (Hquiet f k v Hf Hkv) as [_ Hnone].
    cbn [fst snd] in Hfails. congruence.
  - clear Hquiet. induction files as [| file rest IH]; [reflexivity |].
    cbn [map]. rewrite IH.
    + rewrite (resolvedFile_same w file); [reflexivity |].
      intros key value Hentry.
      now apply (Hplain file key value (or_introl eq_refl) Hentry).
    + intros f k v Hf. apply Hplain. now right.
Qed.

(** ** The flattened list and the way the process ends *)

(** X14: the merged item list is the concatenation of the checklists' item
    lists, in checklist order, whatever capacities [append] picks on the
    way; the capacity of the slice is never below its length. *)
Theorem merged_items_in_file_order (w : World) (files : list ChecklistFile) :
  elems (collectItems w files) = flat_map Checklist files /\
  (length (elems (collectItems w files)) <= capacity (collectItems w files))%nat /\
  forall w', elems (collectItems w' files) = elems (collectItems w files).
Proof.
  split; [apply collectItems_elems |].
  split; [rewrite collectItems_elems; apply collectItems_capacity |].
  intros w'. now rewrite !collectItems_elems.
Qed.

Lemma bind_haltsWith {A B} (P : Outcome -> Prop) (m : Proc.t A)
    (k : A -> Proc.t B) :
  haltsWith P m -> (forall a, haltsWith P (k a)) -> haltsWith P (Proc.bind m k).
Proof.
  unfold haltsWith. destruct m as [tr [o | a]]; simpl; [auto |].
  intros _ Hk. specialize (Hk a). now destruct (k a) as [tr' r].
Qed.

Lemma foldM_haltsWith {A B} (P : Outcome -> Prop) (body : A -> B -> Proc.t A) :
  (forall acc x, haltsWith P (body acc x)) ->
  forall xs acc, haltsWith P (Proc.foldM body acc xs).
Proof.
  intros Hbody xs. induction xs as [| x rest IH]; intros acc; simpl.
  - exact I.
  - apply bind_haltsWith; auto.
Qed.

Ltac halts_plainly :=
  repeat first
    [ exact I
    | progress (unfold plainExit; cbn [haltsWith snd Proc.halt Proc.ret
                                       Proc.emit Proc.emits]); tauto
    | apply bind_haltsWith; [| intros ?]
    | apply foldM_haltsWith; intros ? ?
    | match goal with
      | |- context [match ?x with _ => _ end] => destruct x
      end ].

Lemma startup_halts_plainly w fl : haltsWith plainExit (startup w fl).
Proof.
  unfold startup.
  apply bind_haltsWith; [| intros [useRunbook loaded]].
  { unfold loadChecklists. destruct (length (Args fl) =? 0)%nat.
    - halts_plainly.
    - apply foldM_haltsWith. intros [u files] fname. unfold loadArg.
      halts_plainly. }
  apply bind_haltsWith; [| intros runbook].
  { unfold createRunbook. halts_plainly. }
  apply bind_haltsWith; [| intros resolved].
  { rewrite resolveEnv_run. unfold haltsWith, plainExit. cbn [snd].
    destruct (existsb (fileFails w) loaded); tauto. }
  apply bind_haltsWith; [| intros files].
  { unfold expandRunbook. apply foldM_haltsWith. intros expanded file.
    unfold expandFile. destruct (0 <? length (RunbookSteps file))%nat;
      [| exact I].
    apply bind_haltsWith; [| intros; exact I].
    apply foldM_haltsWith. intros items step. unfold fetchStep.
    halts_plainly. }
  apply bind_haltsWith; [| intros []].
  { unfold listAndExit. destruct (fList fl); [| exact I].
    apply bind_haltsWith; [| intros i; halts_plainly].
    apply foldM_haltsWith. intros i file. unfold listFile.
    apply bind_haltsWith; [exact I | intros _].
    apply bind_haltsWith; [| intros; halts_plainly].
    apply foldM_haltsWith. intros j item. unfold listItem. halts_plainly. }
  apply bind_haltsWith; [| intros runner; exact I].
  unfold prepareRunner. destruct (CreateConfig w) as [err | config];
    [halts_plainly |].
  apply bind_haltsWith.
  - apply foldM_haltsWith. intros c file. unfold addFile. halts_plainly.
  - intros c. destruct (CreateRunner w c) as [err | runner]; [halts_plainly |].
    destruct (0 <? length (GetMissingTools w runner))%nat; halts_plainly.
Qed.

(** X15: the only runtime panic of [main] is the slicing of the item list:
    if a run panics, start-up had succeeded and the skip count is negative
    or larger than the number of merged items; start-up itself never
    panics. *)
Theorem panic_means_bad_skip (w : World) (fl : Flags) (msg : string)
    (Hpanic : snd (main w fl) = Panicked msg) :
  exists tr0 runbook runner files,
    startup w fl = (tr0, inr (runbook, runner, files)) /\
    (fSkip fl < 0 \/ Z.of_nat (length (mergedItems files)) < fSkip fl)%Z.
Proof.
  pose proof (startup_halts_plainly w fl) as Hplain.
  destruct (startup w fl) as [tr0 [o | [[runbook runner] files]]] eqn:Hstart.
  - exfalso. unfold main, program in Hpanic. rewrite Hstart in Hpanic.
    cbn [Proc.bind snd] in Hpanic. subst o.
    unfold haltsWith, plainExit in Hplain. cbn [snd] in Hplain.
    destruct Hplain as [H | [H | H]]; discriminate.
  - exists tr0, runbook, runner, files. split; [reflexivity |].
    destruct (Z_lt_dec (fSkip fl) 0) as [Hneg | Hpos]; [now left |].
    destruct (Z_lt_dec (Z.of_nat (length (mergedItems files))) (fSkip fl))
      as [Hbig | Hsmall]; [now right |].
    exfalso.
    rewrite (main_after_startup _ _ _ _ _ _ Hstart) in Hpanic.
    rewrite (execute_in_range w fl runbook runner files) in Hpanic.
    + cbn [snd outcomeOf] in Hpanic. discriminate.
    + now apply (startup_files _ _ _ _ _ _ Hstart).
    + lia.
Qed.

(** X16: a run that reaches the items with a skip count within range ends
    with [os.Exit]: status 0 exactly when no active item fails, and status
    1 exactly when some active item fails. *)
Theorem exit_status_reflects_failures (w : World) (fl : Flags)
    (tr0 : list Event) (runbook : option RunbookClient) (runner : Runner)
    (files : list ChecklistFile)
    (Hstart : startup w fl = (tr0, inr (runbook, runner, files)))
    (Hskip : (0 <= fSkip fl <= Z.of_nat (length (mergedItems files)))%Z) :
  let active := skipn (Z.to_nat (fSkip fl)) (mergedItems files) in
  (snd (main w fl) = Exited 0 <->
   Forall (fun item => itemFails w fl runner item = false) active) /\
  (snd (main w fl) = Exited 1 <->
   Exists (fun item => itemFails w fl runner item = true) active).
Proof.
  intros active.
  pose proof (startup_files _ _ _ _ _ _ Hstart) as Hfiles.
  rewrite (main_after_startup _ _ _ _ _ _ Hstart).
  rewrite (execute_in_range w fl runbook runner files Hfiles Hskip).
  cbn [snd outcomeOf]. fold active.
  destruct (existsb (itemFails w fl runner) active) eqn:Hany.
  - apply existsb_exists in Hany as (item & Hin & Hfails).
    split; split; try discriminate; try reflexivity.
    + intros Hall. rewrite List.Forall_forall in Hall.
      specialize (Hall item Hin). congruence.
    + intros _. apply List.Exists_exists. eauto.
  - split; split; try discriminate; try reflexivity.
    + intros _. apply List.Forall_forall. intros item Hin.
      destruct (itemFails w fl runner item) eqn:Hfails; [| reflexivity].
      enough (existsb (itemFails w fl runner) active = true) by congruence.
      apply existsb_exists. eauto.
    + intros Hsome. apply List.Exists_exists in Hsome as (item & Hin & Hfails).
      enough (existsb (itemFails w fl runner) active = true) by congruence.
      apply existsb_exists. eauto.
Qed.

Lemma activeTrace_no_checks w fl runbook runner items :
  fAuto fl = true ->
  Forall (fun item => CanCheckItem w item = false) items ->
  activeTrace w fl runbook runner false items =
    map (fun item => EvSkipItem item "NO CHECKS") items /\
  existsb (itemFails w fl runner) items = false.
Proof.
  intros Hauto. induction 1 as [| item rest Hitem _ [IHtr IHfail]];
    [split; reflexivity |].
  assert (itemFails w fl runner item = false) as Hfine
    by (unfold itemFails; now rewrite Hauto, Hitem).
  unfold activeTrace in *. cbn [loopTrace existsb map].
  unfold nextFailure at 2. rewrite Hfine. cbn [orb]. rewrite IHtr, IHfail.
  split; [| reflexivity]. f_equal.
  unfold itemTrace, checkItem. now rewrite Hauto, Hitem.
Qed.

(** X17: an unattended run over active items that have no automated check
    never calls the Runner: each is skipped with the reason "NO CHECKS",
    none counts as a failure, and the run exits with status 0. *)
Theorem unattended_manual_items_pass (w : World) (fl : Flags)
    (tr0 : list Event) (runbook : option RunbookClient) (runner : Runner)
    (files : list ChecklistFile)
    (Hstart : startup w fl = (tr0, inr (runbook, runner, files)))
    (Hskip : (0 <= fSkip fl <= Z.of_nat (length (mergedItems files)))%Z)
    (Hauto : fAuto fl = true)
    (Hmanual : Forall (fun item => CanCheckItem w item = false)
                 (skipn (Z.to_nat (fSkip fl)) (mergedItems files))) :
  main w fl =
  (tr0 ++ bannerLines (firstTitle files)
     ++ map EvBlankItem (firstn (Z.to_nat (fSkip fl)) (mergedItems files))
     ++ map (fun item => EvSkipItem item "NO CHECKS")
          (skipn (Z.to_nat (fSkip fl)) (mergedItems files))
     ++ verdictLines false,
   Exited 0).
Proof.
  pose proof (startup_files _ _ _ _ _ _ Hstart) as Hfiles.
  rewrite (main_after_startup _ _ _ _ _ _ Hstart).
  rewrite (execute_in_range w fl runbook runner files Hfiles Hskip).
  cbn [fst snd outcomeOf].
  destruct (activeTrace_no_checks w fl runbook runner _ Hauto Hmanual)
    as [-> ->].
  reflexivity.
Qed.

(** ** Reports to the runbook service, over every run *)

Ltac no_update :=
  repeat first
    [ match goal with
      | |- Forall _ [] => constructor
      | |- Forall _ (_ :: _) => constructor; [reflexivity |]
      end
    | apply bind_Forall; [| intros ?]
    | apply foldM_Forall; intros ? ?
    | progress cbn [fst snd Proc.halt Proc.ret Proc.emit Proc.emits]
    | match goal with
      | |- context [match ?x with _ => _ end] => destruct x
      end ].

Lemma startup_no_update w fl :
  Forall (fun e => isUpdate e = false) (fst (startup w fl)).
Proof.
  unfold startup.
  apply bind_Forall; [| intros [useRunbook loaded]].
  { unfold loadChecklists. destruct (length (Args fl) =? 0)%nat.
    - no_update.
    - apply foldM_Forall. intros [u files] fname. unfold loadArg. no_update. }
  apply bind_Forall; [| intros runbook].
  { unfold createRunbook. no_update. }
  apply bind_Forall; [| intros resolved].
  { rewrite resolveEnv_run. cbn [fst].
    apply List.Forall_forall. intros e He.
    apply in_flat_map in He as (f & _ & He).
    apply in_flat_map in He as ([k v] & _ & He).
    pose proof (entryEvents_kind w k v) as Hkind.
    rewrite List.Forall_forall in Hkind.
    destruct (Hkind e He) as [s [-> | ->]]; reflexivity. }
  apply bind_Forall; [| intros files].
  { unfold expandRunbook. apply foldM_Forall. intros expanded file.
    unfold expandFile. destruct (0 <? length (RunbookSteps file))%nat;
      [| constructor].
    apply bind_Forall; [| intros; constructor].
    apply foldM_Forall. intros items step. unfold fetchStep. no_update. }
  apply bind_Forall; [| intros []].
  { unfold listAndExit. destruct (fList fl); [| constructor].
    apply bind_Forall; [| intros i; no_update].
    apply foldM_Forall. intros i file. unfold listFile.
    apply bind_Forall; [no_update | intros _].
    apply bind_Forall; [| intros; no_update].
    apply foldM_Forall. intros j item. unfold listItem. no_update. }
  apply bind_Forall; [| intros runner; constructor].
  unfold prepareRunner. destruct (CreateConfig w) as [err | config];
    [no_update |].
  apply bind_Forall.
  - apply foldM_Forall. intros c file. unfold addFile. no_update.
  - intros c. destruct (CreateRunner w c) as [err | runner]; [no_update |].
    destruct (0 <? length (GetMissingTools w runner))%nat; [| constructor].
    apply bind_Forall; [no_update | intros _].
    apply bind_Forall; [| intros; constructor].
    cbn [fst Proc.emits]. apply List.Forall_forall. intros e He.
    apply in_map_iff in He as (name & <- & _). reflexivity.
Qed.

Lemma itemTrace_wellFormed w fl runbook runner failure item :
  Forall wellFormedUpdate (itemTrace w fl runbook runner failure item).
Proof.
  unfold itemTrace, checkItem.
  destruct failure; [repeat constructor |].
  destruct (fAuto fl).
  - destruct (CanCheckItem w item); simpl; [| repeat constructor].
    destruct (RunItemCheck w item runner) as [[[value serr] ok] [e |]];
      [repeat constructor |].
    destruct ok; repeat constructor.
  - destruct (UxCheckItem w item runner) as [ok result]; simpl.
    destruct ok; simpl.
    + constructor; [exact I |]. constructor; [| constructor].
      left. split; reflexivity.
    + destruct (String.eqb (RunbookID item) "") eqn:Hid; simpl.
      * repeat constructor.
      * constructor; [exact I |]. constructor; [| constructor].
        right. split; [reflexivity |]. now apply String.eqb_neq.
Qed.

Lemma execute_wellFormed w fl runbook runner files :
  Forall wellFormedUpdate (fst (execute w fl runbook runner files)).
Proof.
  unfold execute.
  apply bind_Forall; [| intros _].
  { unfold banner. destruct files; repeat constructor. }
  apply bind_Forall; [| intros _].
  { unfold blankItems. destruct (sliceTo _ _) as [blanks |]; [| constructor].
    cbn [fst Proc.emits]. apply List.Forall_forall. intros e He.
    apply in_map_iff in He as (item & <- & _). exact I. }
  apply bind_Forall; [| intros failure; destruct failure; repeat constructor].
  unfold activeItems. destruct (sliceOff _ _) as [active |]; [| constructor].
  rewrite checkItems_run. cbn [fst]. apply loopTrace_Forall.
  intros acc item. apply itemTrace_wellFormed.
Qed.

(** X18: in every run, whatever the flags and the collaborators, a report
    to the runbook service is either Completed (status 1) with an empty
    note, or Failed (status 2) for an item whose runbook id is not empty: a
    failure of an unlinked item is never reported. *)
Theorem updates_are_well_formed (w : World) (fl : Flags) :
  Forall wellFormedUpdate (fst (main w fl)).
Proof.
  rewrite main_trace. unfold program.
  apply bind_Forall.
  - generalize (startup_no_update w fl). apply List.Forall_impl.
    intros e He. destruct e; try exact I. discriminate.
  - intros [[runbook runner] files]. apply execute_wellFormed.
Qed.

(** ** The whole start-up *)

Lemma addFiles_inv w files :
  forall config tr config',
    Proc.foldM (addFile w) config files = (tr, inr config') ->
    Proc.foldM (addFile w) config files = ([], inr config').
Proof.
  intros config tr config' Hrun.
  now rewrite (addFiles_ok w files config tr config' Hrun) in Hrun.
Qed.

Lemma prepareRunner_inv w fl files tr runner :
  prepareRunner w fl files = (tr, inr runner) ->
  exists config0 config,
    CreateConfig w = inr config0 /\
    Proc.foldM (addFile w) (configWithTemp fl config0) files
      = ([], inr config) /\
    CreateRunner w config = inr runner /\
    GetMissingTools w runner = [].
Proof.
  unfold prepareRunner.
  destruct (CreateConfig w) as [err | config0]; [discriminate |].
  intros Hrun. apply bind_inr in Hrun as (tr1 & config & tr2 & Hadd & Hrun & _).
  apply addFiles_inv in Hadd.
  destruct (CreateRunner w config) as [err | rn] eqn:Hrunner; [discriminate |].
  destruct (GetMissingTools w rn) as [| tool tools] eqn:Htools;
    [| discriminate].
  injection Hrun as _ <-. now exists config0, config.
Qed.

(** X19: when start-up succeeds, the checklists that reach the item loop
    are, argument by argument and in argument order, the loaded (or
    synthetic) checklist with its environment resolved and its runbook
    steps expanded; so the merged item list is, for each argument in turn,
    the checklist's own items followed by the items fetched for each of its
    steps; and what start-up printed is the resolution of each checklist's
    entries, checklist by checklist and within a checklist in the order in
    which its map was ranged over, followed by one fetch per runbook
    step. *)
Theorem startup_pipeline (w : World) (fl : Flags) (tr : list Event)
    (runbook : option RunbookClient) (runner : Runner)
    (files : list ChecklistFile)
    (Hstart : startup w fl = (tr, inr (runbook, runner, files))) :
  exists loaded,
    Forall2 (argFile w) (Args fl) loaded /\
    files = map (expandedFile w runbook) (map (resolvedFile w) loaded) /\
    mergedItems files =
      flat_map (fun file =>
                  Checklist file ++ fetchedItems w runbook (RunbookSteps file))
               loaded /\
    exists orders,
      Forall2 (fun file order => Permutation order (map_to_list (Env file)))
        loaded orders /\
      tr = flat_map (orderEvents w) orders
             ++ map EvFetch (flat_map RunbookSteps loaded).
Proof.
  unfold startup in Hstart.
  apply bind_inr in Hstart as (tr1 & [u loaded] & tr2 & Hload & Hrun & ->).
  apply bind_inr in Hrun as (tr3 & rb & tr4 & Hclient & Hrun & ->).
  apply bind_inr in Hrun as (tr5 & resolved & tr6 & Henv & Hrun & ->).
  apply bind_inr in Hrun as (tr7 & expanded & tr8 & Hexp & Hrun & ->).
  apply bind_inr in Hrun as (tr9 & [] & tr10 & Hlist & Hrun & ->).
  apply bind_inr in Hrun as (tr11 & rn & tr12 & Hprep & Hrun & ->).
  injection Hrun as <- <- <- <-.
  apply loadChecklists_run in Hload as (-> & Hloaded & _).
  apply createRunbook_ok in Hclient as ->.
  apply listAndExit_ok in Hlist as ->.
  apply prepareRunner_ok in Hprep as ->.
  rewrite resolveEnv_run in Henv.
  destruct (existsb (fileFails w) loaded); [discriminate |].
  injection Henv as <- <-.
  unfold expandRunbook in Hexp.
  pose proof (expandFiles_inv _ _ _ _ _ _ Hexp) as Hsteps.
  rewrite (expandFiles_good w rb _ Hsteps) in Hexp.
  injection Hexp as <- <-. cbn [app].
  exists loaded. split; [exact Hloaded |]. split; [reflexivity |].
  assert (forall l,
             flat_map RunbookSteps (map (resolvedFile w) l)
             = flat_map RunbookSteps l) as Hsame.
  { induction l as [| f l IHl]; [reflexivity |]. simpl. now rewrite IHl. }
  split.
  - rewrite mergedItems_expanded. clear.
    induction loaded as [| f l IHl]; [reflexivity |]. simpl. now rewrite IHl.
  - exists (rangeOrders w 0 loaded). split; [apply rangeOrders_visit |].
    rewrite Hsame, !app_nil_r. reflexivity.
Qed.

(** X20: the item loop only starts with a usable runner: when runner
    preparation succeeds it printed nothing, the configuration was created,
    given the [--temp] directory if one was passed, and offered every
    checklist in order without error; the runner was created from that
    configuration; and it reports no missing executable. *)
Theorem runner_is_complete (w : World) (fl : Flags)
    (files : list ChecklistFile) (tr : list Event) (runner : Runner)
    (Hready : prepareRunner w fl files = (tr, inr runner)) :
  tr = [] /\
  exists config0 config,
    CreateConfig w = inr config0 /\
    Proc.foldM (addFile w) (configWithTemp fl config0) files
      = ([], inr config) /\
    CreateRunner w config = inr runner /\
    GetMissingTools w runner = [].
Proof.
  split; [now apply (prepareRunner_ok w fl files tr runner) |].
  now apply (prepareRunner_inv w fl files tr runner).
Qed.

Lemma execute_ends w fl runbook runner files :
  exists tr o,
    execute w fl runbook runner files = (tr, inl o) /\
    (plainExit o \/ exists msg, o = Panicked msg).
Proof.
  unfold execute, banner. destruct files as [| first rest].
  - eexists _, _. split; [reflexivity |]. right. eauto.
  - unfold blankItems. destruct (sliceTo _ _) as [blanks |].
    2: { eexists _, _. split; [reflexivity |]. right. eauto. }
    unfold activeItems. destruct (sliceOff _ _) as [active |].
    2: { eexists _, _. split; [reflexivity |]. right. eauto. }
    rewrite checkItems_run. cbn [orb].
    destruct (existsb (itemFails w fl runner) active);
      eexists _, _; (split; [reflexivity |]); left; unfold plainExit; auto.
Qed.

(** X21: whatever the arguments, the checklists and the collaborators
    answer, a run of [main] ends with exit status 0, 1 or 2: [os.Exit] is
    only ever called with 0 or 1, a return from [main] is 0, and 2 is the
    status of the slicing panic. *)
Theorem exit_status_is_0_1_or_2 (w : World) (fl : Flags) :
  exitStatus (snd (main w fl)) = 0%Z \/
  exitStatus (snd (main w fl)) = 1%Z \/
  exitStatus (snd (main w fl)) = 2%Z.
Proof.
  pose proof (startup_halts_plainly w fl) as Hplain.
  unfold main, program.
  destruct (startup w fl) as [tr0 [o | [[runbook runner] files]]] eqn:Hstart.
  - cbn [Proc.bind snd]. unfold haltsWith, plainExit in Hplain.
    cbn [snd] in Hplain. destruct Hplain as [-> | [-> | ->]]; simpl; auto.
  - destruct (execute_ends w fl runbook runner files)
      as (tr & o & Hrun & Hkind).
    rewrite bind_value, Hrun. cbn [fst snd].
    destruct Hkind as [[-> | [-> | ->]] | [msg ->]]; simpl; auto.
Qed.

(** * The further properties on concrete runs *)

Module MoreRuns.

Import Sample Fixtures.

Lemma runbook_client_lazy_witness :
  true = existsb needsRunbook [rollout] /\
  (Some TheRunbookClient = None <-> existsb needsRunbook [rollout] = false) /\
  (forall client,
     Some TheRunbookClient = Some client ->
     CreateRunbookClientWithEnvConfig rolloutWorld = inr client).
Proof.
  apply (runbook_client_lazy rolloutWorld (interactive ["rollout.yaml"])
           [] [] true [rollout] (Some TheRunbookClient)).
  - vm_compute; reflexivity.
  - reflexivity.
Defined.

Lemma checklists_follow_arguments_witness :
  Forall2 (argFile plainWorld)
    ["a.yaml"; "runbook:deploy-step-7"; "b.yaml"]
    [plainA; syntheticFile "deploy-step-7"; plainB]
  /\ length [plainA; syntheticFile "deploy-step-7"; plainB] = 3%nat
  /\ @nil Event = [].
Proof.
  apply (checklists_follow_arguments plainWorld
           (interactive ["a.yaml"; "runbook:deploy-step-7"; "b.yaml"])
           [] true).
  vm_compute; reflexivity.
Defined.

Lemma load_failure_stops_witness :
  main plainWorld (interactive ["a.yaml"; "missing.yaml"; "b.yaml"]) =
  ([EvPrintError "open missing.yaml: no such file or directory"], Returned).
Proof.
  apply (load_failure_stops plainWorld
           (interactive ["a.yaml"; "missing.yaml"; "b.yaml"])
           ["a.yaml"] ["b.yaml"] "missing.yaml").
  - reflexivity.
  - constructor; [| constructor]. right. exists plainA. reflexivity.
  - reflexivity.
  - reflexivity.
Defined.

Lemma runbook_client_failure_witness :
  main (withoutClient rolloutWorld) (interactive ["rollout.yaml"]) =
  ([EvPrintError "Could not use runbook: RUNBOOK_URL is not set"], Exited 1)
  /\ exitStatus
       (snd (main (withoutClient rolloutWorld) (interactive ["rollout.yaml"])))
     = 1%Z.
Proof.
  apply (runbook_client_failure (withoutClient rolloutWorld)
           (interactive ["rollout.yaml"]) [] [rollout]).
  - vm_compute; reflexivity.
  - reflexivity.
Defined.

Lemma expansion_appends_in_order_witness :
  expandRunbook rolloutWorld (Some TheRunbookClient) [rollout] =
    ([EvFetch "deploy-step-7"],
     inr [setChecklist rollout [backup; cordon; snapshot]])
  /\ mergedItems [setChecklist rollout [backup; cordon; snapshot]] =
     [backup; cordon; snapshot].
Proof.
  assert (expandRunbook rolloutWorld (Some TheRunbookClient) [rollout] =
          ([EvFetch "deploy-step-7"],
           inr [setChecklist rollout [backup; cordon; snapshot]])) as Hrun
    by (vm_compute; reflexivity).
  split; [exact Hrun |].
  destruct (expansion_appends_in_order rolloutWorld (Some TheRunbookClient)
              [rollout] _ _ Hrun) as (_ & _ & Hmerged & _).
  exact Hmerged.
Defined.

Lemma fetch_failure_is_fatal_witness :
  expandRunbook rolloutWorld (Some TheRunbookClient)
    ([plainB] ++ rolloutBroken :: [plainA]) =
  ([EvFetch "deploy-step-7"; EvFetch "deploy-step-9";
    EvPrintError
      "Could not fetch checklist for step deploy-step-9: 404 Not Found"],
   inl (Exited 1)).
Proof.
  apply (fetch_failure_is_fatal rolloutWorld (Some TheRunbookClient)
           [plainB] [plainA] rolloutBroken ["deploy-step-7"] []
           "deploy-step-9" "404 Not Found").
  - constructor; [constructor | constructor].
  - reflexivity.
  - constructor; [| constructor]. exists [cordon; snapshot]. reflexivity.
  - reflexivity.
Defined.

Lemma list_mode_numbers_items_witness :
  exists lines,
    main plainWorld (listing ["a.yaml"; "b.yaml"]) =
    (lines ++ [EvPrintf ("%d items in total" +:+ nl) [AInt 3]], Exited 0) /\
    List.filter isItemLine lines =
    [EvPrintf (" %2d. %s" +:+ nl) [AInt 1; AStr "Backup taken"];
     EvPrintf (" %2d. %s" +:+ nl) [AInt 2; AStr "Quorum healthy"];
     EvPrintf (" %2d. %s" +:+ nl) [AInt 3; AStr "Notice sent"]].
Proof.
  destruct (list_mode_numbers_items plainWorld (listing ["a.yaml"; "b.yaml"])
              [] [] [] [] false None [plainA; plainB] [plainA; plainB]
              [plainA; plainB])
    as (lines & Hmain & Hfilter & _ & _).
  - vm_compute; reflexivity.
  - reflexivity.
  - vm_compute; reflexivity.
  - vm_compute; reflexivity.
  - reflexivity.
  - exists lines. split; [exact Hmain | exact Hfilter].
Defined.

Lemma command_output_right_trimmed_witness :
  exists stored suffix tr failed',
    resolveEntry requirementsWorld (∅, false) ("GREETING", "${echo hi")
      = (tr, inr (<["GREETING" := stored]> ∅, failed')) /\
    fst (BashOutput requirementsWorld (slice "${echo hi" 2 (len "${echo hi" - 1)))
      = stored +:+ suffix /\
    allInCutset suffix trimCutset = true /\
    endsInCutset stored trimCutset = false.
Proof.
  apply (command_output_right_trimmed requirementsWorld ∅ false "GREETING"
           "${echo hi").
  - reflexivity.
  - cbn; lia.
Defined.

Lemma resolution_keeps_names_witness :
  Forall2 (fun file file' =>
             dom (Env file') = dom (Env file) /\
             FileTitle file' = FileTitle file /\
             Filename file' = Filename file /\
             Checklist file' = Checklist file /\
             RunbookSteps file' = RunbookSteps file)
          [requirements] [resolvedRequirements].
Proof.
  apply (resolution_keeps_names requirementsWorld [requirements]
           [resolvedRequirements] [EvExec "echo h"]).
  vm_compute; reflexivity.
Defined.

Lemma satisfied_env_untouched_witness :
  resolveEnv plainWorld [plainA; plainB] = ([], inr [plainA; plainB]).
Proof.
  apply (satisfied_env_untouched plainWorld [plainA; plainB]).
  intros file key value [<- | [<- | []]] Hentry.
  - cbn [Env plainA] in Hentry.
    apply lookup_insert_Some in Hentry as [[_ <-] | [_ Hentry]].
    + split; [reflexivity | discriminate].
    + rewrite lookup_empty in Hentry. discriminate.
  - cbn [Env plainB] in Hentry. rewrite lookup_empty in Hentry. discriminate.
Defined.

Lemma panic_means_bad_skip_witness :
  exists tr0 runbook runner files,
    startup upgradeWorld (unattended (-1) ["upgrade.yaml"])
      = (tr0, inr (runbook, runner, files)) /\
    ((-1) < 0 \/ Z.of_nat (length (mergedItems files)) < (-1))%Z.
Proof.
  apply (panic_means_bad_skip upgradeWorld (unattended (-1) ["upgrade.yaml"])
           "slice bounds out of range").
  vm_compute; reflexivity.
Defined.

Lemma exit_status_reflects_failures_witness :
  Exists (fun item =>
            itemFails upgradeWorld (unattended 1 ["upgrade.yaml"])
              upgradeRunner item = true)
         [quorum; notice].
Proof.
  destruct (exit_status_reflects_failures upgradeWorld
              (unattended 1 ["upgrade.yaml"]) [] None upgradeRunner [upgrade])
    as [_ [Hfailed _]].
  - vm_compute; reflexivity.
  - cbn; lia.
  - apply Hfailed. vm_compute; reflexivity.
Defined.

Lemma unattended_manual_items_pass_witness :
  main manualWorld (unattended 0 ["manual.yaml"]) =
  (bannerLines "Manual"
     ++ [EvSkipItem backup "NO CHECKS"; EvSkipItem notice "NO CHECKS"]
     ++ verdictLines false,
   Exited 0).
Proof.
  apply (unattended_manual_items_pass manualWorld
           (unattended 0 ["manual.yaml"]) [] None
           (mkRunner (mkConfig "" [manualOnly])) [manualOnly]).
  - vm_compute; reflexivity.
  - cbn; lia.
  - reflexivity.
  - repeat constructor.
Defined.

Lemma startup_pipeline_witness :
  exists loaded,
    Forall2 (argFile rolloutWorld) ["rollout.yaml"] loaded /\
    [setChecklist rollout [backup; cordon; snapshot]] =
      map (expandedFile rolloutWorld (Some TheRunbookClient))
          (map (resolvedFile rolloutWorld) loaded) /\
    mergedItems [setChecklist rollout [backup; cordon; snapshot]] =
      flat_map (fun file =>
                  Checklist file
                    ++ fetchedItems rolloutWorld (Some TheRunbookClient)
                         (RunbookSteps file))
               loaded /\
    exists orders,
      Forall2 (fun file order => Permutation order (map_to_list (Env file)))
        loaded orders /\
      [EvFetch "deploy-step-7"] =
        flat_map (orderEvents rolloutWorld) orders
          ++ map EvFetch (flat_map RunbookSteps loaded).
Proof.
  apply (startup_pipeline rolloutWorld (unattended 0 ["rollout.yaml"])
           [EvFetch "deploy-step-7"] (Some TheRunbookClient)
           (mkRunner
              (mkConfig "" [setChecklist rollout [backup; cordon; snapshot]]))
           [setChecklist rollout [backup; cordon; snapshot]]).
  vm_compute; reflexivity.
Defined.

Lemma runner_is_complete_witness :
  @nil Event = [] /\
  exists config0 config,
    CreateConfig upgradeWorld = inr config0 /\
    Proc.foldM (addFile upgradeWorld)
      (configWithTemp (unattended 1 ["upgrade.yaml"]) config0) [upgrade]
      = ([], inr config) /\
    CreateRunner upgradeWorld config = inr upgradeRunner /\
    GetMissingTools upgradeWorld upgradeRunner = [].
Proof.
  apply (runner_is_complete upgradeWorld (unattended 1 ["upgrade.yaml"])
           [upgrade] [] upgradeRunner).
  vm_compute; reflexivity.
Defined.

(** Two command entries of one checklist under the two orders of its map:
    the same two commands, in either order. *)
Lemma commands_in_either_order :
  commandsRun (fst (resolveEnv twiceBrokenWorld [twoCommands]))
  = ["echo h"; "exit 1"]
  /\ commandsRun
       (fst (resolveEnv (withReversedRange twiceBrokenWorld) [twoCommands]))
     = ["exit 1"; "echo h"].
Proof. split; vm_compute; reflexivity. Qed.

End MoreRuns.
